(** * Sarawak Food Court: live order updates

    A shallow embedding of the notification and progress subsystem of
    [js/qr-code-manager.js] (classes [NotificationManager],
    [ProgressTracker], [OrderSubscription]) and of the service worker
    (install / activate / push / fetch handlers), with the properties the
    specification states about them.

    Conventions of the embedding.
    - A status is a JavaScript string; [===] on strings is [String.eqb].
    - A JavaScript Number is an exact rational ([Q]); the only arithmetic
      in scope is [index / (length - 1) * 100] on indices between -1 and 3,
      so a width is read up to the rounding of the last binary digit.
    - A DOM element is a record carrying a fresh identifier; identity
      comparisons ([indexOf], [parentNode]) compare identifiers.
    - [setTimeout] appends a pending timer to the state; firing a pending
      timer is an explicit event, in any order.
    - A JavaScript object read by key is a [gmap string _].
    - The cache storage behaves as the platform's: [caches.match] finds
      nothing for a request whose method is not GET, [cache.put] rejects
      such a request and a partial answer (status 206), [cache.addAll]
      stores all answers or none.
    - Rows of the backend tables are as [database/orders_migration.sql]
      declares them. *)

From Stdlib Require Import ZArith QArith List Sorted String Ascii Lia.
From stdpp Require Import base option list strings pretty gmap.

Open Scope string_scope.
Open Scope Z_scope.
Open Scope list_scope.

(** ** Array helpers *)

Module JsArray.

(** [Array.prototype.indexOf] on an array of strings: the first index
    holding [x], or [-1]. *)
Fixpoint indexOf_from (l : list string) (x : string) (i : Z) : Z :=
  match l with
  | [] => -1
  | y :: l' => if String.eqb y x then i else indexOf_from l' x (i + 1)
  end.

Definition indexOf (l : list string) (x : string) : Z := indexOf_from l x 0.

End JsArray.

(** ** NotificationManager *)

Module Notify.

(** The card built by [createNotificationElement]: [card_id] stands for
    the identity of the DOM node, the other fields for the values
    interpolated into its markup (the icon glyph and the clock time are
    markup only and left out). *)
Record Card := mkCard {
  card_id : nat;
  card_status : string;
  card_title : string;
  card_message : string
}.

(** Callbacks handed to [setTimeout], with the card they close over. *)
Inductive Callback :=
| AddShowClass (c : nat)     (* () => notification.classList.add('show') *)
| AutoDismiss (c : nat)      (* () => this.dismiss(notification) *)
| RemoveCard (c : nat).      (* the body of the timeout inside dismiss *)

Record Timer := mkTimer { delay : Z; callback : Callback }.

(** The fields of the manager that [show] and [dismiss] read and write.
    Sound and the system-level notification touch none of them. *)
Record Manager := mkManager {
  children : list Card;            (* this.container child nodes *)
  notificationQueue : list Card;   (* this.notificationQueue *)
  showClass : list nat;            (* cards carrying class 'show' *)
  hideClass : list nat;            (* cards carrying class 'hide' *)
  timers : list Timer;             (* pending setTimeout callbacks *)
  nextId : nat                     (* identity of the next created node *)
}.

(** [this.maxNotifications = 3], assigned in the constructor only. *)
Definition maxNotifications : nat := 3.

(** The constructor followed by the synchronous part of [init]. *)
Definition new : Manager :=
  {| children := []; notificationQueue := []; showClass := [];
     hideClass := []; timers := []; nextId := 0 |}.

(** A template literal prints an absent value as the word undefined. *)
Definition interpolate (v : option string) : string := default "undefined" v.

Definition createNotificationElement
    (id : nat) (status : string) (title message : option string) : Card :=
  {| card_id := id; card_status := status;
     card_title := interpolate title; card_message := interpolate message |}.

Definition setTimeout (cb : Callback) (ms : Z) (m : Manager) : Manager :=
  {| children := children m; notificationQueue := notificationQueue m;
     showClass := showClass m; hideClass := hideClass m;
     timers := timers m ++ [mkTimer ms cb]; nextId := nextId m |}.

(** [dismiss(notification)]: the card gets class 'hide' at once, its
    removal from the DOM and from the queue waits 400 ms. *)
Definition dismiss (c : nat) (m : Manager) : Manager :=
  setTimeout (RemoveCard c) 400
    {| children := children m; notificationQueue := notificationQueue m;
       showClass := showClass m; hideClass := hideClass m ++ [c];
       timers := timers m; nextId := nextId m |}.

(** Removal of the first node whose identity is [c]: [removeChild] on the
    container, [indexOf] then [splice(index, 1)] on the queue. *)
Fixpoint remove_first (c : nat) (l : list Card) : list Card :=
  match l with
  | [] => []
  | x :: l' => if Nat.eqb (card_id x) c then l' else x :: remove_first c l'
  end.

Definition removeNow (c : nat) (m : Manager) : Manager :=
  {| children := remove_first c (children m);
     notificationQueue := remove_first c (notificationQueue m);
     showClass := showClass m; hideClass := hideClass m;
     timers := timers m; nextId := nextId m |}.

Record Options := mkOptions {
  opt_status : string;
  opt_title : option string;
  opt_message : option string;
  opt_duration : option Z    (* duration = 5000 *)
}.

Definition setQueue (q : list Card) (m : Manager) : Manager :=
  {| children := children m; notificationQueue := q;
     showClass := showClass m; hideClass := hideClass m;
     timers := timers m; nextId := nextId m |}.

(** The queue management at the end of [show]: [push], then [shift] the
    oldest card and dismiss it once the queue is longer than
    [maxNotifications]. *)
Definition manageQueue (card : Card) (m : Manager) : Manager :=
  let pushed := setQueue (notificationQueue m ++ [card]) m in
  if Nat.ltb maxNotifications (length (notificationQueue pushed)) then
    match notificationQueue pushed with
    | oldNotification :: rest => dismiss (card_id oldNotification) (setQueue rest pushed)
    | [] => pushed
    end
  else pushed.

(** [show(options)], up to sound and the system-level notification. *)
Definition show (o : Options) (m : Manager) : Card * Manager :=
  let duration := default 5000 (opt_duration o) in
  let card :=
    createNotificationElement (nextId m) (opt_status o) (opt_title o) (opt_message o) in
  let m1 :=
    {| children := children m ++ [card]; notificationQueue := notificationQueue m;
       showClass := showClass m; hideClass := hideClass m;
       timers := timers m; nextId := S (nextId m) |} in
  let m2 := setTimeout (AddShowClass (card_id card)) 10 m1 in
  let m3 := setTimeout (AutoDismiss (card_id card)) duration m2 in
  (card, manageQueue card m3).

(** Running the callback of a timer that has come due. *)
Definition run (cb : Callback) (m : Manager) : Manager :=
  match cb with
  | AddShowClass c =>
      {| children := children m; notificationQueue := notificationQueue m;
         showClass := showClass m ++ [c]; hideClass := hideClass m;
         timers := timers m; nextId := nextId m |}
  | AutoDismiss c => dismiss c m
  | RemoveCard c => removeNow c m
  end.

Definition dropTimer (i : nat) (m : Manager) : Manager :=
  {| children := children m; notificationQueue := notificationQueue m;
     showClass := showClass m; hideClass := hideClass m;
     timers := take i (timers m) ++ drop (S i) (timers m);
     nextId := nextId m |}.

(** What can happen to a manager: a call to [show], a pending timer
    coming due, a click on the close button of a card. *)
Inductive Event :=
| Show (o : Options)
| Fire (i : nat)
| ClickClose (c : nat).

Definition step (m : Manager) (e : Event) : Manager :=
  match e with
  | Show o => snd (show o m)
  | Fire i =>
      match timers m !! i with
      | Some t => run (callback t) (dropTimer i m)
      | None => m
      end
  | ClickClose c => dismiss c m
  end.

Definition steps (es : list Event) (m : Manager) : Manager := fold_left step es m.

(** Cards are queued in the order of their creation: identities grow
    along the queue and stay below the next identity to be handed out. *)
Definition inCreationOrder (m : Manager) : Prop :=
  StronglySorted lt (map card_id (notificationQueue m)) /\
  Forall (fun c => (card_id c < nextId m)%nat) (notificationQueue m).

(** Three cards on screen, as left by three status notifications, and a
    fourth request. *)
Definition threeShown : Manager :=
  steps [Show (mkOptions "preparing" (Some "Cooking Started!") (Some "a") None);
         Show (mkOptions "ready" (Some "Order Ready!") (Some "b") None);
         Show (mkOptions "completed" (Some "Enjoy Your Meal!") (Some "c") None)]
        new.

Definition fourth : Options :=
  mkOptions "pending" (Some "New Order!") (Some "d") (Some 3000).

(** The cards on screen that are not fading out. *)
Definition visible (m : Manager) : list Card :=
  List.filter (fun c => negb (existsb (Nat.eqb (card_id c)) (hideClass m))) (children m).

(** How the container, the queue and the hide class hang together: nodes
    are in the container in the order of their creation, every queued
    card is in the container, and a card in the container that has left
    the queue carries the hide class. *)
Definition coherent (m : Manager) : Prop :=
  StronglySorted lt (map card_id (children m)) /\
  Forall (fun c => (card_id c < nextId m)%nat) (children m) /\
  (forall c, In c (notificationQueue m) -> In c (children m)) /\
  (forall c, In c (children m) ->
             In c (notificationQueue m) \/ In (card_id c) (hideClass m)).

End Notify.

(** ** ProgressTracker *)

Module Progress.

(** What [render] writes into the container: the width of the filled
    line and the class of each step, in step order. *)
Record View := mkView {
  fillWidth : Q;
  stepClasses : list (string * string)
}.

(** [container] is [None] when [getElementById] found no element;
    otherwise it holds the successive values assigned to [innerHTML],
    oldest first. *)
Record Tracker := mkTracker {
  container : option (list View);
  currentStep : string
}.

(** [this.steps], assigned in the constructor only. *)
Definition steps : list string := ["pending"; "preparing"; "ready"; "completed"].

Definition new (containerFound : bool) : Tracker :=
  {| container := if containerFound then Some [] else None;
     currentStep := "pending" |}.

Definition getStepClass (t : Tracker) (step : string) : string :=
  let currentIndex := JsArray.indexOf steps (currentStep t) in
  let stepIndex := JsArray.indexOf steps step in
  if stepIndex <? currentIndex then "completed"
  else if stepIndex =? currentIndex then "active"
  else "".

Definition getProgressWidth (t : Tracker) : Q :=
  let currentIndex := JsArray.indexOf steps (currentStep t) in
  (inject_Z currentIndex / inject_Z (Z.of_nat (length steps) - 1)) * inject_Z 100.

Definition render (t : Tracker) : Tracker :=
  match container t with
  | None => t
  | Some writes =>
      {| container :=
           Some (writes ++ [mkView (getProgressWidth t)
                                   (map (fun step => (step, getStepClass t step)) steps)]);
         currentStep := currentStep t |}
  end.

(** One entry of the [messages] table; a field is [None] when reading it
    gives undefined. *)
Record Message := mkMessage { title : option string; message : option string }.

(** Names every object literal inherits from [Object.prototype]. *)
Definition inheritedKeys : list string :=
  ["constructor"; "__defineGetter__"; "__defineSetter__"; "hasOwnProperty";
   "__lookupGetter__"; "__lookupSetter__"; "isPrototypeOf";
   "propertyIsEnumerable"; "toString"; "valueOf"; "__proto__";
   "toLocaleString"].

(** [messages[newStatus]]: the four own entries, then the inherited
    members (truthy values without a title or a message), else
    undefined. *)
Definition messages (newStatus : string) : option Message :=
  if String.eqb newStatus "pending" then
    Some (mkMessage (Some "Order Confirmed! 🎉")
                    (Some "Your order has been placed successfully"))
  else if String.eqb newStatus "preparing" then
    Some (mkMessage (Some "Cooking Started! 👨‍🍳")
                    (Some "Your food is being prepared with love"))
  else if String.eqb newStatus "ready" then
    Some (mkMessage (Some "Order Ready! ✅")
                    (Some "Your delicious food is ready for pickup!"))
  else if String.eqb newStatus "completed" then
    Some (mkMessage (Some "Enjoy Your Meal! 🎉")
                    (Some "Thank you for your order. Bon appétit!"))
  else if existsb (String.eqb newStatus) inheritedKeys then
    Some (mkMessage None None)
  else None.

(** The tracker together with [window.notificationManager]. *)
Record World := mkWorld {
  tracker : Tracker;
  manager : option Notify.Manager
}.

(** A page as the script leaves it once loaded: a fresh tracker, and the
    global manager installed by the last statement of the file. *)
Definition fresh (containerFound : bool) : World :=
  {| tracker := new containerFound; manager := Some Notify.new |}.

Definition updateStatus (newStatus : string) (w : World) : World :=
  if String.eqb (currentStep (tracker w)) newStatus then w
  else
    let t := render {| container := container (tracker w); currentStep := newStatus |} in
    match manager w with
    | Some m =>
        match messages newStatus with
        | Some notifData =>
            {| tracker := t;
               manager :=
                 Some (snd (Notify.show
                              (Notify.mkOptions newStatus (title notifData)
                                                (message notifData) None) m)) |}
        | None => {| tracker := t; manager := Some m |}
        end
    | None => {| tracker := t; manager := None |}
    end.

(** Successive calls, and the width read after each of them. *)
Definition feed (statuses : list string) (w : World) : World :=
  fold_left (fun w s => updateStatus s w) statuses w.

Fixpoint widths (statuses : list string) (w : World) : list Q :=
  match statuses with
  | [] => []
  | s :: rest =>
      let w' := updateStatus s w in
      getProgressWidth (tracker w') :: widths rest w'
  end.

(** Titles of the cards created so far, newest last. Cards leave
    [children] when dismissed, so the count of cards ever created is
    [nextId]. *)
Definition created (w : World) : nat :=
  match manager w with Some m => Notify.nextId m | None => O end.

Definition cardTitles (w : World) : list string :=
  match manager w with
  | Some m => map Notify.card_title (Notify.children m)
  | None => []
  end.

Definition renders (w : World) : list View := default [] (container (tracker w)).

(** The classes [render] gives the four steps when the current status has
    index -1. *)
Definition offScaleClasses : list (string * string) :=
  [("pending", ""); ("preparing", ""); ("ready", ""); ("completed", "")].

(** The recognised status values of the data model. *)
Definition orderStatuses : list string :=
  ["pending"; "preparing"; "ready"; "completed"; "cancelled"].

(** Updates that never step back on the scale: each status sits at or
    after the current one in [steps]. *)
Fixpoint inScaleOrder (current : string) (statuses : list string) : bool :=
  match statuses with
  | [] => true
  | s :: rest =>
      (JsArray.indexOf steps current <=? JsArray.indexOf steps s)
      && inScaleOrder s rest
  end.

Fixpoint nondecreasing (l : list Q) : Prop :=
  match l with
  | a :: (b :: _) as rest => (a <= b)%Q /\ nondecreasing rest
  | _ => True
  end.

(** A width to one decimal place, in tenths (round half up). *)
Definition tenths (q : Q) : Z :=
  (2 * 10 * Qnum q + Zpos (Qden q)) / (2 * Zpos (Qden q)).

(** What [render] writes for a tracker. *)
Definition viewOf (t : Tracker) : View :=
  mkView (getProgressWidth t) (map (fun step => (step, getStepClass t step)) steps).

(** The updates of a sequence that carry a status other than the one in
    force when they arrive, and those among them that have an entry in
    the message table. *)
Fixpoint changes (current : string) (statuses : list string) : nat :=
  match statuses with
  | [] => O
  | s :: rest => ((if String.eqb current s then 0 else 1) + changes s rest)%nat
  end.

Fixpoint announced (current : string) (statuses : list string) : nat :=
  match statuses with
  | [] => O
  | s :: rest =>
      ((if String.eqb current s then 0
        else match messages s with Some _ => 1 | None => 0 end) + announced s rest)%nat
  end.

End Progress.

(** ** OrderSubscription *)

Module Subscription.

Inductive Table := Orders | OrderItems.

(** A realtime channel of the backend client, with the one
    [postgres_changes] binding the code registers on it. *)
Record Channel := mkChannel {
  ref : nat;            (* identity of the channel object *)
  topic : string;
  table : Table;
  rowFilter : string
}.

(** The backend client: the channels it holds open. *)
Record Client := mkClient {
  channels : list Channel;
  nextRef : nat
}.

Definition emptyClient : Client := {| channels := []; nextRef := 0 |}.

Record OrderSubscription := mkSub {
  orderId : string;
  subscription : option nat;   (* this.subscription: a channel, or null *)
  onUpdate : bool              (* whether this.onUpdate holds a callback *)
}.

Definition new (orderId : string) : OrderSubscription :=
  {| orderId := orderId; subscription := None; onUpdate := false |}.

(** [supabase.channel(name).on('postgres_changes', {...}, handler).subscribe(...)] *)
Definition openChannel (name : string) (tbl : Table) (flt : string) (c : Client)
    : nat * Client :=
  (nextRef c,
   {| channels := channels c ++ [mkChannel (nextRef c) name tbl flt];
      nextRef := S (nextRef c) |}).

(** [supabase.removeChannel(channel)] *)
Definition removeChannel (r : nat) (c : Client) : Client :=
  {| channels := List.filter (fun ch => negb (Nat.eqb (ref ch) r)) (channels c);
     nextRef := nextRef c |}.

Definition subscribe (s : OrderSubscription) (c : Client) : OrderSubscription * Client :=
  let '(orders, c1) :=
    openChannel ("order-" ++ orderId s) Orders ("order_id=eq." ++ orderId s) c in
  let '(_, c2) :=
    openChannel ("order-items-" ++ orderId s) OrderItems ("order_id=eq." ++ orderId s) c1 in
  ({| orderId := orderId s; subscription := Some orders; onUpdate := true |}, c2).

Definition unsubscribe (s : OrderSubscription) (c : Client) : Client :=
  match subscription s with
  | Some r => removeChannel r c
  | None => c
  end.

(** A changed row of the orders table as the feed delivers it in
    [payload.new]: [order_id] is the public order id, a text. *)
Record Row := mkRow { row_order_id : string; row_status : string }.

(** A changed row of the order_items table: its [order_id] is the uuid of
    the order's row (the 128-bit number), and the table has no status
    column. *)
Record ItemRow := mkItemRow { item_order_id : N }.

Inductive Change :=
| OrderChange (r : Row)
| ItemChange (i : ItemRow).

(** What the callback receives; reading the status of an order_items row
    gives undefined ([None]). *)
Inductive Update :=
| OrderRecord (r : Row)                 (* this.onUpdate(payload.new) *)
| StatusOnly (status : option string).  (* this.onUpdate({ status: payload.new.status }) *)

Definition hexDigitValue (c : ascii) : option N :=
  let n := N_of_ascii c in
  if ((48 <=? n) && (n <=? 57))%N then Some (n - 48)%N
  else if ((97 <=? n) && (n <=? 102))%N then Some (n - 87)%N
  else if ((65 <=? n) && (n <=? 70))%N then Some (n - 55)%N
  else None.

(** The database reading a text as a uuid: sixteen bytes of two hex
    digits each, [i] counting the bytes read; a hyphen may follow every
    second byte but the last. Answers the number read and the text left. *)
Fixpoint readBytes (i left : nat) (acc : N) (src : string) : option (N * string) :=
  match left with
  | O => Some (acc, src)
  | S left' =>
      match src with
      | String a (String b rest) =>
          match hexDigitValue a, hexDigitValue b with
          | Some x, Some y =>
              readBytes (S i) left' (acc * 256 + 16 * x + y)%N
                (match rest with
                 | String "-" rest' => if Nat.odd i && (i <? 15)%nat then rest' else rest
                 | _ => rest
                 end)
          | _, _ => None
          end
      | _ => None
      end
  end.

(** The cast of a filter value to the type of a uuid column; the text may
    stand in braces; [None] when the text is no uuid. *)
Definition castUUID (src : string) : option N :=
  match src with
  | String "{" inner =>
      match readBytes 0 16 0 inner with
      | Some (u, "}") => Some u
      | _ => None
      end
  | _ =>
      match readBytes 0 16 0 src with
      | Some (u, "") => Some u
      | _ => None
      end
  end.

Fixpoint stripPrefix (p s : string) : option string :=
  match p, s with
  | EmptyString, _ => Some s
  | String a p', String b s' => if Ascii.eqb a b then stripPrefix p' s' else None
  | String _ _, EmptyString => None
  end.

(** Whether the binding of a channel selects a change: the table is the
    channel's, and the row's [order_id] equals the value of the filter,
    compared as the column's type: as texts on orders, as uuids on
    order_items, where a value that is no uuid selects nothing. *)
Definition selects (ch : Channel) (change : Change) : bool :=
  match table ch, change with
  | Orders, OrderChange r =>
      String.eqb (rowFilter ch) ("order_id=eq." ++ row_order_id r)
  | OrderItems, ItemChange i =>
      match stripPrefix "order_id=eq." (rowFilter ch) with
      | Some value =>
          match castUUID value with
          | Some u => N.eqb u (item_order_id i)
          | None => false
          end
      | None => false
      end
  | _, _ => false
  end.

(** An UPDATE reaches every open channel whose binding selects it; each
    such channel runs its handler. *)
Definition deliver (change : Change) (s : OrderSubscription) (c : Client)
    : list Update :=
  flat_map
    (fun ch =>
       if selects ch change && onUpdate s
       then match table ch with
            | Orders =>
                match change with
                | OrderChange r => [OrderRecord r]
                | ItemChange _ => []
                end
            | OrderItems => [StatusOnly None]
            end
       else [])
    (channels c).

Definition topics (c : Client) : list string := map topic (channels c).

End Subscription.

(** ** Service worker *)

Module ServiceWorker.

Definition CACHE_NAME : string := "sarawak-food-court-v1".

Definition urlsToCache : list string :=
  ["/"; "/customer/home.html"; "/customer/menu.html";
   "/customer/order-tracking.html"; "/css/main.css"; "/css/customer.css";
   "/css/notifications.css"; "/js/app.js"; "/js/notifications.js"].

(** *** Cache storage *)

(** A request is identified by its method and URL. *)
Definition GET (url : string) : string * string := ("GET", url).

Record Response := mkResponse { status : Z; body : string }.

(** [caches]: the named caches in creation order, each a map from
    request identity to the stored response. *)
Definition keys (s : list (string * gmap (string * string) Response)) : list string :=
  map fst s.

Definition hasCache (name : string) (s : list (string * gmap (string * string) Response)) : bool :=
  existsb (String.eqb name) (keys s).

(** [caches.open(name)] creates the cache when there is none. *)
Definition caches_open (name : string) (s : list (string * gmap (string * string) Response))
    : list (string * gmap (string * string) Response) :=
  if hasCache name s then s else s ++ [(name, ∅)].

(** [caches.delete(name)] *)
Definition caches_delete (name : string) (s : list (string * gmap (string * string) Response))
    : list (string * gmap (string * string) Response) :=
  List.filter (fun kv => negb (String.eqb (fst kv) name)) s.

(** The first cache, in creation order, that holds the request. *)
Fixpoint matchIn (req : string * string)
    (s : list (string * gmap (string * string) Response)) : option Response :=
  match s with
  | [] => None
  | (_, c) :: s' =>
      match c !! req with
      | Some r => Some r
      | None => matchIn req s'
      end
  end.

(** [caches.match(request)]: a request whose method is not GET matches
    nothing; a GET request matches the first cache that holds it. *)
Definition caches_match (req : string * string)
    (s : list (string * gmap (string * string) Response)) : option Response :=
  if String.eqb (fst req) "GET" then matchIn req s else None.

(** Whether [cache.put] takes the pair: it rejects a request whose method
    is not GET and a partial answer (status 206). Response headers are
    not part of a response here, so the rejection of an answer that
    varies on everything is outside this model. *)
Definition putAccepts (req : string * string) (resp : Response) : bool :=
  String.eqb (fst req) "GET" && negb (status resp =? 206).

(** [cache.put(request, response)] on the cache called [name]; a
    rejected put leaves the storage as it was. *)
Definition cache_put (name : string) (req : string * string) (resp : Response)
    (s : list (string * gmap (string * string) Response))
    : list (string * gmap (string * string) Response) :=
  if putAccepts req resp then
    map (fun kv => if String.eqb (fst kv) name then (fst kv, <[req := resp]> (snd kv)) else kv) s
  else s.

(** The network: [fetch] resolves with a response or rejects. *)
Definition Network : Type := string * string -> option Response.

(** *** install *)

(** [cache.addAll(urls)] stores every response, or nothing at all when a
    fetch rejects or answers outside 200..299 or with the partial status
    206. *)
Fixpoint fetchAll (net : Network) (urls : list string) : option (list (string * Response)) :=
  match urls with
  | [] => Some []
  | u :: rest =>
      match net (GET u) with
      | Some r =>
          if (200 <=? status r) && (status r <? 300) && negb (status r =? 206)
          then option_map (cons (u, r)) (fetchAll net rest)
          else None
      | None => None
      end
  end.

(** The install handler; the boolean tells whether the promise handed to
    [waitUntil] was fulfilled. *)
Definition install (net : Network) (s : list (string * gmap (string * string) Response))
    : bool * list (string * gmap (string * string) Response) :=
  let s1 := caches_open CACHE_NAME s in
  match fetchAll net urlsToCache with
  | Some rs => (true, fold_left (fun st ur => cache_put CACHE_NAME (GET (fst ur)) (snd ur) st) rs s1)
  | None => (false, s1)
  end.

(** *** activate *)

Definition activate (s : list (string * gmap (string * string) Response))
    : list (string * gmap (string * string) Response) :=
  fold_left
    (fun st cacheName =>
       if negb (String.eqb cacheName CACHE_NAME) then caches_delete cacheName st else st)
    (keys s) s.

(** *** fetch *)

(** The fetch handler: the value handed to [respondWith] ([None] for
    undefined) and the cache storage it leaves. *)
Definition handleFetch (net : Network) (request : string * string)
    (s : list (string * gmap (string * string) Response))
    : option Response * list (string * gmap (string * string) Response) :=
  match caches_match request s with
  | Some response => (Some response, s)
  | None =>
      match net request with
      | Some fetchResponse =>
          (Some fetchResponse,
           cache_put CACHE_NAME request fetchResponse (caches_open CACHE_NAME s))
      | None => (caches_match (GET "/offline.html") s, s)
      end
  end.

(** Whether a named cache is the current generation. *)
Definition isCurrent (kv : string * gmap (string * string) Response) : bool :=
  String.eqb (fst kv) CACHE_NAME.

(** The entry stored for a request in the current generation. *)
Definition stored (request : string * string)
    (s : list (string * gmap (string * string) Response)) : option Response :=
  caches_match request (List.filter isCurrent s).

(** Every stored request is a GET request, as [cache.put] sees to. *)
Definition onlyGET (s : list (string * gmap (string * string) Response)) : Prop :=
  forall name c req resp, In (name, c) s -> c !! req = Some resp -> fst req = "GET".

(** A storage holding an earlier generation, the current one and the
    cache of queued orders. *)
Definition oldAndNew : list (string * gmap (string * string) Response) :=
  [("sarawak-food-court-v0", ∅); (CACHE_NAME, ∅); ("orders-cache", ∅)].

(** *** push *)

(** A JSON value, as [event.data.json()] returns it. A number is a
    rational: every finite number of the language is one, and JSON has no
    others. *)
#[local] Unset Elimination Schemes.
Inductive jval :=
| JNull
| JBool (b : bool)
| JNum (n : Q)
| JStr (s : string)
| JArr (items : list jval)
| JObj (members : list (string * jval)).
#[local] Set Elimination Schemes.

Arguments JNum n%_Q.

(** [event.data]: [text()] always answers, [json()] answers the parsed
    value or throws ([None]). *)
Record PushMessageData := mkPush { text : string; json : option jval }.

Fixpoint chars (s : string) : list jval :=
  match s with
  | EmptyString => []
  | String c s' => JStr (String c EmptyString) :: chars s'
  end.

(** The own enumerable properties an object spread copies. *)
Definition ownEntries (v : jval) : list (string * jval) :=
  match v with
  | JObj members => members
  | JArr items => imap (fun i x => (pretty i, x)) items
  | JStr s => imap (fun i x => (pretty i, x)) (chars s)
  | JNull | JBool _ | JNum _ => []
  end.

(** [{ ...target, ...source }] *)
Definition spread (target : gmap string jval) (source : jval) : gmap string jval :=
  fold_left (fun o kv => <[fst kv := snd kv]> o) (ownEntries source) target.

Definition defaultNotification : gmap string jval :=
  <["title" := JStr "Sarawak Food Court"]>
  (<["body" := JStr "Your order status has been updated"]>
  (<["icon" := JStr "/assets/logo.png"]>
  (<["badge" := JStr "/assets/logo.png"]>
  (<["vibrate" := JArr [JNum 200; JNum 100; JNum 200]]>
  (<["tag" := JStr "order-update"]>
  (<["requireInteraction" := JBool false]> ∅)))))).

Record Action := mkAction { action : string; action_title : string; action_icon : string }.

(** The arguments of [self.registration.showNotification]; a field is
    [None] where the code passes undefined. *)
Record SystemNotification := mkSystemNotification {
  n_title : option jval;
  n_body : option jval;
  n_icon : option jval;
  n_badge : option jval;
  n_vibrate : option jval;
  n_tag : option jval;
  n_requireInteraction : option jval;
  n_data : option jval;
  n_actions : list Action
}.

Definition resolvePayload (data : option PushMessageData) : gmap string jval :=
  match data with
  | Some d =>
      match json d with
      | Some parsed => spread defaultNotification parsed
      | None => <["body" := JStr (text d)]> defaultNotification
      end
  | None => defaultNotification
  end.

(** The push handler: the system notification it displays. *)
Definition onPush (data : option PushMessageData) : SystemNotification :=
  let notificationData := resolvePayload data in
  {| n_title := notificationData !! "title";
     n_body := notificationData !! "body";
     n_icon := notificationData !! "icon";
     n_badge := notificationData !! "badge";
     n_vibrate := notificationData !! "vibrate";
     n_tag := notificationData !! "tag";
     n_requireInteraction := notificationData !! "requireInteraction";
     n_data := notificationData !! "data";
     n_actions :=
       [mkAction "view" "View Order" "/assets/icons/view.png";
        mkAction "close" "Dismiss" "/assets/icons/close.png"] |}.

(** *** Strings and values, as the handlers read them *)

(** [haystack.includes(needle)] *)
Fixpoint includes (needle haystack : string) : bool :=
  String.prefix needle haystack
  || match haystack with
     | EmptyString => false
     | String _ rest => includes needle rest
     end.

(** Reading a property of a value: own members of an object (the last
    one wins when a key is repeated), indices of an array or a string,
    nothing on the other values. *)
Definition getProp (v : jval) (key : string) : option jval := spread ∅ v !! key.

(** Truthiness of a value that may be undefined ([None]). *)
Definition truthy (v : option jval) : bool :=
  match v with
  | None | Some JNull => false
  | Some (JBool b) => b
  | Some (JNum n) => negb (Qeq_bool n 0)
  | Some (JStr s) => negb (String.eqb s "")
  | Some (JArr _) | Some (JObj _) => true
  end.

Fixpoint joinWith (sep : string) (parts : list string) : string :=
  match parts with
  | [] => ""
  | [p] => p
  | p :: rest => p ++ sep ++ joinWith sep rest
  end.

Section Printing.

(** The text the language gives for a number (decimal digits for a whole
    number below 10^21, a fraction or an exponent form otherwise); the
    handlers do not depend on which. *)
Variable printNumber : Q -> string.

(** What a template literal prints for a value. *)
Fixpoint toStr (v : jval) : string :=
  match v with
  | JNull => "null"
  | JBool true => "true"
  | JBool false => "false"
  | JNum n => printNumber n
  | JStr s => s
  | JArr items =>
      joinWith ","
        ((fix each (l : list jval) : list string :=
            match l with
            | [] => []
            | JNull :: rest => "" :: each rest
            | x :: rest => toStr x :: each rest
            end) items)
  | JObj _ => "[object Object]"
  end.

Definition template (v : option jval) : string :=
  match v with
  | None => "undefined"
  | Some x => toStr x
  end.

(** *** notificationclick *)

(** A window client as [clients.matchAll] lists it. *)
Record WindowClient := mkClient { client_url : string; focusable : bool }.

(** What the click handler asks of the platform; clients are named by
    their position in the list [matchAll] answered. *)
Inductive ClickEffect :=
| CloseNotification
| Focus (client : nat)
| Navigate (client : nat) (url : string)
| OpenWindow (url : string).

Definition trackingURL (data : option jval) : string :=
  let orderId := match data with Some d => getProp d "orderId" | None => None end in
  if truthy orderId
  then "/customer/order-tracking.html?order=" ++ template orderId
  else "/customer/order-tracking.html".

Definition isCustomerClient (c : WindowClient) : bool :=
  includes "/customer/" (client_url c) && focusable c.

(** The loop over the client list, [i] being the position reached. *)
Fixpoint focusFirst (url : string) (i : nat) (clientList : list WindowClient)
    : option (list ClickEffect) :=
  match clientList with
  | [] => None
  | c :: rest =>
      if isCustomerClient c then Some [Focus i; Navigate i url]
      else focusFirst url (S i) rest
  end.

(** The notificationclick handler: [action] is the empty string for a
    click on the body, [canOpenWindow] tells whether [clients.openWindow]
    exists. *)
Definition onNotificationClick (action : string) (data : option jval)
    (clientList : list WindowClient) (canOpenWindow : bool) : list ClickEffect :=
  CloseNotification ::
  (if String.eqb action "view" || String.eqb action "" then
     let url := trackingURL data in
     match focusFirst url 0 clientList with
     | Some effects => effects
     | None => if canOpenWindow then [OpenWindow url] else []
     end
   else []).

(** *** message *)

Inductive WorkerEffect :=
| SkipWaiting
| ShowNotification (n : SystemNotification).

(** The members of an object literal whose values are defined. *)
Definition objectOf (members : list (string * option jval)) : jval :=
  JObj (omap (fun kv => match snd kv with
                        | Some v => Some (fst kv, v)
                        | None => None
                        end) members).

(** The message handler on [event.data]; reading a property of null
    throws ([None]). *)
Definition onMessage (data : jval) : option (list WorkerEffect) :=
  match data with
  | JNull => None
  | _ =>
      let type := getProp data "type" in
      let skip :=
        match type with
        | Some (JStr "SKIP_WAITING") => [SkipWaiting]
        | _ => []
        end in
      let update :=
        match type with
        | Some (JStr "ORDER_UPDATE") =>
            let orderId := getProp data "orderId" in
            let status := getProp data "status" in
            let message := getProp data "message" in
            [ShowNotification
               {| n_title := Some (JStr "Order Update");
                  n_body := message;
                  n_icon := Some (JStr "/assets/logo.png");
                  n_badge := None;
                  n_vibrate := None;
                  n_tag := Some (JStr ("order-" ++ template orderId));
                  n_requireInteraction := None;
                  n_data := Some (objectOf [("orderId", orderId); ("status", status)]);
                  n_actions := [] |}]
        | _ => []
        end in
      Some (skip ++ update)
  end.

End Printing.

(** *** sync *)

(** The contents of the first cache called [name], empty when there is
    none. *)
Fixpoint cacheOf (name : string) (s : list (string * gmap (string * string) Response))
    : gmap (string * string) Response :=
  match s with
  | [] => ∅
  | (k, c) :: s' => if String.eqb k name then c else cacheOf name s'
  end.

(** The loop of [syncOrders]: each queued request is fetched again and
    its answer stored over the old one; the first fetch or put that
    rejects ends the loop (the rejection is caught and logged). *)
Fixpoint replay (net : Network) (requests : list (string * string))
    (s : list (string * gmap (string * string) Response))
    : list (string * gmap (string * string) Response) :=
  match requests with
  | [] => s
  | request :: rest =>
      match net request with
      | Some response =>
          if putAccepts request response
          then replay net rest (cache_put "orders-cache" request response s)
          else s
      | None => s
      end
  end.

(** What [cache.keys()] may answer for a cache: each stored request once.
    The order is the one in which the entries were inserted, which the
    contents of a cache do not tell, so it comes with the answer. *)
Definition enumerates (requests : list (string * string))
    (c : gmap (string * string) Response) : Prop :=
  List.NoDup requests /\ forall q, In q requests <-> is_Some (c !! q).

(** [syncOrders]; [requests] is what [cache.keys()] answers for
    orders-cache, read once before the loop. *)
Definition syncOrders (net : Network) (requests : list (string * string))
    (s : list (string * gmap (string * string) Response))
    : list (string * gmap (string * string) Response) :=
  replay net requests (caches_open "orders-cache" s).

(** A run of intercepted requests, each with the network as it is when
    the request arrives. *)
Definition serve (events : list (Network * (string * string)))
    (s : list (string * gmap (string * string) Response))
    : list (string * gmap (string * string) Response) :=
  fold_left (fun st e => snd (handleFetch (fst e) (snd e) st)) events s.

(** The sync handler. *)
Definition onSync (tag : string) (net : Network) (requests : list (string * string))
    (s : list (string * gmap (string * string) Response))
    : list (string * gmap (string * string) Response) :=
  if String.eqb tag "sync-orders" then syncOrders net requests s else s.

End ServiceWorker.

(** ** System notifications requested by the page *)

Module SystemChannel.





End SystemChannel.

(** ** QRCodeManager *)

Module QRCode.

Definition PRODUCTION_URL : string := "https://sarawak-order.netlify.app".
Definition USE_AUTO_DETECT : bool := true.

(** The fields of [window.location] the manager reads. *)
Record Location := mkLocation {
  hostname : string;
  port : string;
  origin : string;
  pathname : string
}.

Definition isDevelopment (l : Location) : bool :=
  String.eqb (hostname l) "localhost"
  || String.eqb (hostname l) "127.0.0.1"
  || String.eqb (hostname l) "0.0.0.0"
  || String.prefix "192.168." (hostname l)
  || String.prefix "10." (hostname l)
  || negb (String.eqb (port l) "").

Definition getBaseURL (l : Location) : string :=
  if USE_AUTO_DETECT then
    if isDevelopment l then
      if negb (String.eqb PRODUCTION_URL "")
         && negb (ServiceWorker.includes "localhost" PRODUCTION_URL)
      then PRODUCTION_URL
      else origin l
    else origin l
  else PRODUCTION_URL.

(** [s.lastIndexOf(c)] for a single character, [-1] when absent. *)
Fixpoint lastIndexOf_from (c : ascii) (s : string) (i : Z) (found : Z) : Z :=
  match s with
  | EmptyString => found
  | String x rest =>
      lastIndexOf_from c rest (i + 1) (if Ascii.eqb x c then i else found)
  end.

Definition lastIndexOf (c : ascii) (s : string) : Z := lastIndexOf_from c s 0 (-1).

(** [s.substring(0, e)]; a negative end counts as 0. *)
Definition substringTo (e : Z) (s : string) : string := String.substring 0 (Z.to_nat e) s.

(** [generateMenuURL]; both arguments as the template literal prints
    them. *)
Definition generateMenuURL (l : Location) (foodCourtId tableNumber : string) : string :=
  let baseUrl := getBaseURL l in
  let path :=
    if String.eqb baseUrl (origin l) then
      (substringTo (lastIndexOf "/" (pathname l)) (pathname l) ++ "/../customer/home.html")%string
    else "/customer/home.html" in
  (baseUrl ++ path ++ "?foodcourt=" ++ foodCourtId ++ "&table=" ++ tableNumber)%string.

(** *** encodeURIComponent, on the UTF-8 bytes of the text *)

Definition isUnreserved (c : ascii) : bool :=
  let n := N_of_ascii c in
  ((65 <=? n) && (n <=? 90))%N        (* A-Z *)
  || ((97 <=? n) && (n <=? 122))%N    (* a-z *)
  || ((48 <=? n) && (n <=? 57))%N     (* 0-9 *)
  || existsb (Ascii.eqb c) ["-"; "_"; "."; "!"; "~"; "*"; "'"; "("; ")"]%char.

Definition hexDigit (n : N) : ascii :=
  if (n <? 10)%N then ascii_of_N (48 + n) else ascii_of_N (55 + n).

Definition percentEncode (c : ascii) : string :=
  let n := N_of_ascii c in
  String "%" (String (hexDigit (n / 16)) (String (hexDigit (n mod 16)) EmptyString)).

Fixpoint encodeURIComponent (s : string) : string :=
  match s with
  | EmptyString => EmptyString
  | String c rest =>
      if isUnreserved c then String c (encodeURIComponent rest)
      else (percentEncode c ++ encodeURIComponent rest)%string
  end.

(** The inverse reading of percent escapes, used to state that the
    encoding loses nothing. *)
Definition hexValue (c : ascii) : N :=
  let n := N_of_ascii c in
  if (n <? 58)%N then (n - 48)%N else (n - 55)%N.

Fixpoint decodeEscapes (s : string) : string :=
  match s with
  | String "%" (String h (String l rest)) =>
      String (ascii_of_N (16 * hexValue h + hexValue l)) (decodeEscapes rest)
  | String c rest => String c (decodeEscapes rest)
  | EmptyString => EmptyString
  end.

(** [generateQRCodeURL(dataUrl, size = 300)] *)
Definition generateQRCodeURL (dataUrl : string) (size : option Z) : string :=
  let size := pretty (default 300 size) in
  ("https://api.qrserver.com/v1/create-qr-code/?size=" ++ size ++ "x" ++ size
   ++ "&data=" ++ encodeURIComponent dataUrl)%string.

(** *** The download name, on UTF-16 code units *)

(** The code units the pattern [\s] matches. *)
Definition isWhiteSpace (u : N) : bool :=
  ((9 <=? u) && (u <=? 13))%N
  || (u =? 32)%N || (u =? 160)%N || (u =? 5760)%N
  || ((8192 <=? u) && (u <=? 8202))%N
  || (u =? 8232)%N || (u =? 8233)%N || (u =? 8239)%N || (u =? 8287)%N
  || (u =? 12288)%N || (u =? 65279)%N.

(** [text.replace(/\s+/g, '_')]: every maximal run of white space becomes
    one underscore; [inRun] tells whether the previous unit was white
    space. *)
Fixpoint replaceRuns (inRun : bool) (text : list N) : list N :=
  match text with
  | [] => []
  | u :: rest =>
      if isWhiteSpace u then
        if inRun then replaceRuns true rest else 95%N :: replaceRuns true rest
      else u :: replaceRuns false rest
  end.

Definition sanitize (foodCourtName : list N) : list N := replaceRuns false foodCourtName.

(** The code units of an ASCII literal. *)
Definition units (s : string) : list N := map N_of_ascii (list_ascii_of_string s).

(** [link.download] in [downloadQRCode]. *)
Definition downloadName (foodCourtName tableNumber : list N) : list N :=
  units "QR_" ++ sanitize foodCourtName ++ units "_Table_" ++ tableNumber ++ units ".png".

(** *** Stored QR codes *)

(** The backend client handed to the constructor, as far as the manager
    uses it on table qr_codes: a filtered read answering data and error
    code, and an insert answering the same and changing the backend. *)
Record NewRow := mkNewRow {
  food_court_id : string;
  table_number : Z;
  qr_code_url : string;
  menu_url : string
}.

Record Backend (S R : Type) := mkBackend {
  selectMaybeSingle : string -> Z -> S -> option R * option string;
  insertSingle : NewRow -> S -> (option R * option string) * S
}.
Arguments selectMaybeSingle {S R}.
Arguments insertSingle {S R}.

Section Manager.

Context {S R : Type} (backend : Backend S R) (location : Location).

(** [getQRCode]: the thrown error code on the left. *)
Definition getQRCode (foodCourtId : string) (tableNumber : Z) (st : S)
    : string + option R :=
  match selectMaybeSingle backend foodCourtId tableNumber st with
  | (data, Some code) => if negb (String.eqb code "PGRST116") then inl code else inr data
  | (data, None) => inr data
  end.

(** [getOrCreateQRCode]: the row found or inserted with its [isNew]
    flag. *)
Definition getOrCreateQRCode (foodCourtId : string) (tableNumber : Z) (st : S)
    : (string + option R * bool) * S :=
  match getQRCode foodCourtId tableNumber st with
  | inl code => (inl code, st)
  | inr (Some qrCode) => (inr (Some qrCode, false), st)
  | inr None =>
      let menuUrl := generateMenuURL location foodCourtId (pretty tableNumber) in
      let qrCodeUrl := generateQRCodeURL menuUrl None in
      match insertSingle backend (mkNewRow foodCourtId tableNumber qrCodeUrl menuUrl) st with
      | ((_, Some code), st') => (inl code, st')
      | ((data, None), st') => (inr (data, true), st')
      end
  end.

Record Summary := mkSummary {
  success : bool;
  total : nat;
  newCount : nat;
  existingCount : nat;
  qrCodes : list (option R * bool)
}.

(** The loop of [batchGenerateQRCodes], [remaining] tables being left
    from [tableNumber] on. *)
Fixpoint batchLoop (foodCourtId : string) (remaining : nat) (tableNumber : Z)
    (qrCodes : list (option R * bool)) (newCount existingCount : nat) (st : S)
    : (string + Summary) * S :=
  match remaining with
  | O => (inr (mkSummary true (length qrCodes) newCount existingCount qrCodes), st)
  | Datatypes.S remaining' =>
      match getOrCreateQRCode foodCourtId tableNumber st with
      | (inl code, st') => (inl code, st')
      | (inr result, st') =>
          if snd result
          then batchLoop foodCourtId remaining' (tableNumber + 1)
                 (qrCodes ++ [result]) (Datatypes.S newCount) existingCount st'
          else batchLoop foodCourtId remaining' (tableNumber + 1)
                 (qrCodes ++ [result]) newCount (Datatypes.S existingCount) st'
      end
  end.

(** [batchGenerateQRCodes]: the loop runs for the tables from
    [startTable] up to [endTable], none when the range is empty. *)
Definition batchGenerateQRCodes (foodCourtId : string) (startTable endTable : Z) (st : S)
    : (string + Summary) * S :=
  batchLoop foodCourtId (Z.to_nat (endTable - startTable + 1)) startTable [] O O st.

End Manager.

(** A backend kept in memory: the rows in insertion order; a read that
    matches several rows answers the error PGRST116 and no data. *)
Definition memorySelect (foodCourtId : string) (tableNumber : Z) (rows : list NewRow)
    : option NewRow * option string :=
  match List.filter
          (fun r => String.eqb (food_court_id r) foodCourtId && (table_number r =? tableNumber))
          rows with
  | [] => (None, None)
  | [r] => (Some r, None)
  | _ => (None, Some "PGRST116")
  end.

Definition memoryBackend : Backend (list NewRow) NewRow :=
  {| selectMaybeSingle := memorySelect;
     insertSingle := fun row rows => ((Some row, None), rows ++ [row]) |}.

Definition adminPage : Location :=
  mkLocation "localhost" "5500" "http://localhost:5500" "/admin/qr-codes.html".

End QRCode.

(** * Properties *)

(** ** The definitions at work *)

Example indexOf_ready : JsArray.indexOf Progress.steps "ready" = 2.
Proof. reflexivity. Qed.

Example indexOf_cancelled : JsArray.indexOf Progress.steps "cancelled" = -1.
Proof. reflexivity. Qed.

Example classes_at_ready :
  map (Progress.getStepClass (Progress.mkTracker None "ready")) Progress.steps
  = ["completed"; "completed"; "active"; ""].
Proof. reflexivity. Qed.

Example inherited_member_is_truthy :
  Progress.messages "constructor" = Some (Progress.mkMessage None None).
Proof. reflexivity. Qed.

Example push_with_json :
  let shown :=
    ServiceWorker.onPush
      (Some (ServiceWorker.mkPush "{...}"
               (Some (ServiceWorker.JObj
                        [("title", ServiceWorker.JStr "Order Ready");
                         ("data", ServiceWorker.JObj [("orderId", ServiceWorker.JStr "A1")])])))) in
  ServiceWorker.n_title shown = Some (ServiceWorker.JStr "Order Ready") /\
  ServiceWorker.n_body shown = Some (ServiceWorker.JStr "Your order status has been updated") /\
  ServiceWorker.n_data shown
  = Some (ServiceWorker.JObj [("orderId", ServiceWorker.JStr "A1")]).
Proof. vm_compute. repeat split. Qed.

Example activate_purges_old :
  ServiceWorker.keys (ServiceWorker.activate ServiceWorker.oldAndNew)
  = [ServiceWorker.CACHE_NAME].
Proof. reflexivity. Qed.

(** ** Order progress state machine *)

Section ProgressFacts.

Import Progress.

Lemma indexOf_off_scale (s : string) :
  ~ In s steps -> JsArray.indexOf steps s = -1.
Proof.
  intros Hs. unfold JsArray.indexOf, steps in *.
  cbn [JsArray.indexOf_from]. cbn [In] in Hs.
  repeat match goal with
         | |- context [String.eqb ?a s] =>
             destruct (String.eqb_spec a s); [exfalso; apply Hs; tauto|]
         end.
  reflexivity.
Qed.

Lemma indexOf_range (s : string) :
  -1 <= JsArray.indexOf steps s <= 3.
Proof.
  unfold JsArray.indexOf, steps. cbn [JsArray.indexOf_from].
  repeat match goal with
         | |- context [String.eqb ?a s] => destruct (String.eqb a s)
         end; lia.
Qed.

Lemma render_currentStep (t : Tracker) : currentStep (render t) = currentStep t.
Proof. unfold render. destruct (container t); reflexivity. Qed.

Lemma updateStatus_currentStep (s : string) (w : World) :
  currentStep (tracker (updateStatus s w)) = s.
Proof.
  unfold updateStatus.
  destruct (String.eqb_spec (currentStep (tracker w)) s) as [E|_]; [exact E|].
  destruct (manager w); [destruct (messages s)|]; cbn [tracker];
    apply render_currentStep.
Qed.

Lemma width_of_index (t : Tracker) :
  getProgressWidth t
  = (inject_Z (JsArray.indexOf steps (currentStep t)) / inject_Z 3 * inject_Z 100)%Q.
Proof. reflexivity. Qed.

Lemma width_monotone (t1 t2 : Tracker) :
  JsArray.indexOf steps (currentStep t1) <= JsArray.indexOf steps (currentStep t2) ->
  (getProgressWidth t1 <= getProgressWidth t2)%Q.
Proof.
  intros H. rewrite !width_of_index.
  unfold Qle, Qdiv, Qmult, Qinv, inject_Z. simpl. lia.
Qed.

End ProgressFacts.

Section ProgressTransitions.

Import Progress.

Lemma tracker_after_update (s : string) (w : World) :
  currentStep (tracker w) <> s ->
  tracker (updateStatus s w)
  = render {| container := container (tracker w); currentStep := s |}.
Proof.
  intros Hne. unfold updateStatus.
  destruct (String.eqb_spec (currentStep (tracker w)) s) as [E|_]; [contradiction|].
  destruct (manager w); [destruct (messages s)|]; reflexivity.
Qed.

Lemma render_off_scale (s : string) (c : option (list View)) :
  ~ In s steps ->
  render {| container := c; currentStep := s |}
  = {| container := option_map (fun writes => writes ++ [mkView (-100 # 3) offScaleClasses]) c;
       currentStep := s |}.
Proof.
  intros Hs. unfold render. cbn [container currentStep].
  destruct c as [writes|]; [|reflexivity].
  unfold getProgressWidth, getStepClass. cbn [currentStep map steps].
  fold steps. rewrite (indexOf_off_scale s Hs). reflexivity.
Qed.

Lemma width_off_scale (t : Tracker) :
  ~ In (currentStep t) steps -> getProgressWidth t = (-100 # 3)%Q.
Proof.
  intros Hs. unfold getProgressWidth. rewrite (indexOf_off_scale _ Hs). reflexivity.
Qed.

Lemma manager_after_silent_update (s : string) (w : World) :
  messages s = None -> manager (updateStatus s w) = manager w.
Proof.
  intros Hm. unfold updateStatus.
  destruct (String.eqb (currentStep (tracker w)) s); [reflexivity|].
  destruct (manager w); [rewrite Hm|]; reflexivity.
Qed.

End ProgressTransitions.

Section ProgressClaims.

Import Progress.

(** C1, as stated, fails: from a fresh tracker the updates ready then
    preparing keep [currentStep] on the linear scale, yet the width read
    after the second update (100/3) is below the one read after the first
    (200/3). *)
Lemma width_drops_on_backward_update :
  let w1 := updateStatus "ready" (fresh true) in
  let w2 := updateStatus "preparing" w1 in
  In (currentStep (tracker w1)) steps /\
  In (currentStep (tracker w2)) steps /\
  (getProgressWidth (tracker w2) < getProgressWidth (tracker w1))%Q /\
  ~ nondecreasing (widths ["ready"; "preparing"] (fresh true)).
Proof.
  intros w1 w2. subst w1 w2. rewrite !updateStatus_currentStep.
  split; [|split; [|split]].
  - cbn [In steps]. tauto.
  - cbn [In steps]. tauto.
  - unfold Qlt. vm_compute. reflexivity.
  - cbn [widths nondecreasing]. intros [H _]. revert H. apply Qlt_not_le.
    unfold Qlt. vm_compute. reflexivity.
Qed.

(** C1 (amended): for every sequence of status updates in which each
    status sits at or after the current step in the step list, the width
    returned by [getProgressWidth] after each update is monotonically
    non-decreasing, starting from the width before the first update. *)
Theorem width_nondecreasing_in_scale_order (statuses : list string) (w : World)
    (Horder : inScaleOrder (currentStep (tracker w)) statuses = true) :
  nondecreasing (getProgressWidth (tracker w) :: widths statuses w).
Proof.
  revert w Horder.
  induction statuses as [|s rest IH]; intros w Horder; [exact I|].
  cbn [inScaleOrder] in Horder.
  apply andb_true_iff in Horder as [Hle Hrest]. apply Z.leb_le in Hle.
  cbn [widths nondecreasing]. split.
  - apply width_monotone. rewrite updateStatus_currentStep. exact Hle.
  - apply IH. rewrite updateStatus_currentStep. exact Hrest.
Qed.

Lemma width_nondecreasing_in_scale_order_witness :
  nondecreasing
    (getProgressWidth (tracker (fresh true))
     :: widths ["pending"; "preparing"; "preparing"; "ready"; "completed"] (fresh true)).
Proof.
  apply (width_nondecreasing_in_scale_order
           ["pending"; "preparing"; "preparing"; "ready"; "completed"] (fresh true)).
  reflexivity.
Defined.

(** C2, as stated, fails: the value delivered is none of the five order
    statuses, and [updateStatus] stores it in [currentStep], writes a new
    rendering and moves the width from 0 to -100/3. *)
Lemma unknown_status_is_applied :
  let w := fresh true in
  let w' := updateStatus "delivered" w in
  ~ In "delivered" orderStatuses /\
  currentStep (tracker w') <> currentStep (tracker w) /\
  renders w' <> renders w /\
  ~ (getProgressWidth (tracker w') == getProgressWidth (tracker w))%Q.
Proof.
  intros w w'. subst w w'. split; [|split; [|split]].
  - unfold orderStatuses. cbn [In]. intuition discriminate.
  - rewrite updateStatus_currentStep. intros H. vm_compute in H. discriminate H.
  - intros H. vm_compute in H. discriminate H.
  - intros H. vm_compute in H. discriminate H.
Qed.

(** C2 (amended): for every status value outside pending, preparing,
    ready, completed, cancelled that differs from [currentStep],
    [updateStatus] accepts it without any error result: [currentStep]
    becomes that value, and the tracker is rendered again with progress
    width -100/3 (index -1 over 3, times 100), a defined number, every
    step indicator left unmarked. *)
Theorem unknown_status_accepted (s : string) (w : World)
    (Hunknown : ~ In s orderStatuses)
    (Hnew : currentStep (tracker w) <> s) :
  let w' := updateStatus s w in
  currentStep (tracker w') = s /\
  getProgressWidth (tracker w') = (-100 # 3)%Q /\
  container (tracker w')
  = option_map (fun writes => writes ++ [mkView (-100 # 3) offScaleClasses])
               (container (tracker w)).
Proof.
  assert (Hs : ~ In s steps).
  { intros H. apply Hunknown. cbn [In steps orderStatuses] in *. tauto. }
  cbn zeta. split; [apply updateStatus_currentStep|]. split.
  - apply width_off_scale. rewrite updateStatus_currentStep. exact Hs.
  - rewrite (tracker_after_update s w Hnew), (render_off_scale s _ Hs). reflexivity.
Qed.

Lemma unknown_status_accepted_witness :
  let w' := updateStatus "delivered" (fresh true) in
  currentStep (tracker w') = "delivered" /\
  getProgressWidth (tracker w') = (-100 # 3)%Q /\
  container (tracker w')
  = option_map (fun writes => writes ++ [mkView (-100 # 3) offScaleClasses])
               (container (tracker (fresh true))).
Proof.
  apply (unknown_status_accepted "delivered" (fresh true)).
  - unfold orderStatuses. cbn [In]. intuition discriminate.
  - discriminate.
Defined.

(** C3: in every state, [updateStatus] called with the status already in
    [currentStep] changes nothing: [currentStep] stays, the container
    receives no new rendering and no card is created; hence feeding any
    status twice in a row has the effect of feeding it once. *)
Theorem updateStatus_same_status_noop (w : World) (s : string) :
  let w' := updateStatus (currentStep (tracker w)) w in
  w' = w /\
  currentStep (tracker w') = currentStep (tracker w) /\
  renders w' = renders w /\
  created w' = created w /\
  updateStatus s (updateStatus s w) = updateStatus s w.
Proof.
  assert (Hsame : forall v, updateStatus (currentStep (tracker v)) v = v).
  { intros v. unfold updateStatus. rewrite String.eqb_refl. reflexivity. }
  cbn zeta. rewrite Hsame. repeat split.
  rewrite <- (updateStatus_currentStep s w) at 1. apply Hsame.
Qed.

End ProgressClaims.

Section StatusFlow.

Import Progress.

(** C4, as stated, fails: a fresh tracker already holds pending, so the
    first update is the no-op of the equal-status guard and the flow
    creates three cards, not four. *)
Lemma fresh_flow_creates_three_cards :
  let w := feed ["pending"; "preparing"; "ready"; "completed"] (fresh true) in
  created w = 3%nat /\
  created w <> 4%nat /\
  length (cardTitles w) <> 4%nat /\
  ~ In "Order Confirmed! 🎉" (cardTitles w).
Proof.
  intros w. subst w. split; [|split; [|split]].
  - vm_compute. reflexivity.
  - intros H. vm_compute in H. discriminate H.
  - intros H. vm_compute in H. discriminate H.
  - intros H. vm_compute in H. intuition discriminate.
Qed.

(** C4 (amended): feeding pending, preparing, ready, completed one at a
    time into a freshly constructed tracker leaves the first update
    without effect (the tracker starts at pending) and creates exactly
    three cards, titled in order with the table's entries for preparing,
    ready and completed, which begin with "Cooking Started!", "Order
    Ready!" and "Enjoy Your Meal!"; the widths read after the four updates
    are 0, 100/3, 200/3, 100, that is 0, 33.3, 66.7, 100 to one decimal. *)
Theorem status_flow_from_fresh_tracker (containerFound : bool) :
  let flow := ["pending"; "preparing"; "ready"; "completed"] in
  let w := feed flow (fresh containerFound) in
  updateStatus "pending" (fresh containerFound) = fresh containerFound /\
  created w = 3%nat /\
  cardTitles w = ["Cooking Started! 👨‍🍳"; "Order Ready! ✅"; "Enjoy Your Meal! 🎉"] /\
  map (fun p => String.prefix (fst p) (snd p))
      (combine ["Cooking Started!"; "Order Ready!"; "Enjoy Your Meal!"] (cardTitles w))
  = [true; true; true] /\
  Forall2 Qeq (widths flow (fresh containerFound)) [0; 100 # 3; 200 # 3; 100]%Q /\
  map tenths (widths flow (fresh containerFound)) = [0; 333; 667; 1000].
Proof.
  intros flow w. subst flow w.
  destruct containerFound.
  all: split; [vm_compute; reflexivity|].
  all: split; [vm_compute; reflexivity|].
  all: split; [vm_compute; reflexivity|].
  all: split; [vm_compute; reflexivity|]; split; [|vm_compute; reflexivity].
  all: vm_compute;
    repeat (apply List.Forall2_cons; [reflexivity|]); apply List.Forall2_nil.
Qed.

(** C10: in every state [updateStatus] called with cancelled leaves
    [currentStep] at cancelled and the notification manager untouched
    (the message table has no entry for cancelled), and
    [getProgressWidth] then returns -100/3, cancelled having index -1 in
    the step list; when the status was not cancelled before, the tracker
    is rendered again, with that negative width. *)
Theorem cancelled_update (w : World) :
  let w' := updateStatus "cancelled" w in
  JsArray.indexOf steps "cancelled" = -1 /\
  messages "cancelled" = None /\
  currentStep (tracker w') = "cancelled" /\
  manager w' = manager w /\
  getProgressWidth (tracker w') = (-100 # 3)%Q /\
  (currentStep (tracker w) <> "cancelled" ->
   container (tracker w')
   = option_map (fun writes => writes ++ [mkView (-100 # 3) offScaleClasses])
                (container (tracker w))).
Proof.
  assert (Hs : ~ In "cancelled" steps).
  { unfold steps. cbn [In]. intuition discriminate. }
  cbn zeta. split; [reflexivity|]. split; [reflexivity|].
  split; [apply updateStatus_currentStep|].
  split; [apply manager_after_silent_update; reflexivity|].
  split.
  - apply width_off_scale. rewrite updateStatus_currentStep. exact Hs.
  - intros Hne.
    rewrite (tracker_after_update _ w Hne), (render_off_scale _ _ Hs). reflexivity.
Qed.

Lemma cancelled_update_witness :
  container (tracker (updateStatus "cancelled" (updateStatus "preparing" (fresh true))))
  = option_map (fun writes => writes ++ [mkView (-100 # 3) offScaleClasses])
               (container (tracker (updateStatus "preparing" (fresh true)))).
Proof.
  apply (cancelled_update (updateStatus "preparing" (fresh true))).
  rewrite updateStatus_currentStep. discriminate.
Defined.

End StatusFlow.

(** ** Notification queue *)

Section QueueFacts.

Import Notify.

Lemma remove_first_length (c : nat) (l : list Card) :
  (length (remove_first c l) <= length l)%nat.
Proof.
  induction l as [|x l IH]; cbn [remove_first length]; [lia|].
  destruct (Nat.eqb (card_id x) c); cbn [length]; lia.
Qed.

Lemma manageQueue_bound (card : Card) (m : Manager) :
  (length (notificationQueue m) <= maxNotifications)%nat ->
  (length (notificationQueue (manageQueue card m)) <= maxNotifications)%nat.
Proof.
  intros Hm. unfold manageQueue. cbn [setQueue notificationQueue].
  destruct (Nat.ltb_spec maxNotifications (length (notificationQueue m ++ [card]))) as [Hlt|Hle];
    [|exact Hle].
  destruct (notificationQueue m) as [|old rest]; cbn [app] in *.
  - cbn [length] in Hlt. unfold maxNotifications in Hlt. lia.
  - cbn [dismiss setTimeout setQueue notificationQueue].
    rewrite length_app. cbn [length] in *. lia.
Qed.

Lemma show_bound (o : Options) (m : Manager) :
  (length (notificationQueue m) <= maxNotifications)%nat ->
  (length (notificationQueue (snd (show o m))) <= maxNotifications)%nat.
Proof. intros Hm. unfold show. cbn [snd]. apply manageQueue_bound. exact Hm. Qed.

Lemma step_bound (m : Manager) (e : Event) :
  (length (notificationQueue m) <= maxNotifications)%nat ->
  (length (notificationQueue (step m e)) <= maxNotifications)%nat.
Proof.
  intros Hm. destruct e as [o|i|c]; cbn [step].
  - apply show_bound. exact Hm.
  - destruct (timers m !! i) as [t|]; [|exact Hm].
    destruct (callback t); cbn [run dismiss setTimeout removeNow dropTimer notificationQueue];
      try exact Hm.
    etransitivity; [apply remove_first_length|exact Hm].
  - exact Hm.
Qed.

Lemma steps_bound (es : list Event) (m : Manager) :
  (length (notificationQueue m) <= maxNotifications)%nat ->
  (length (notificationQueue (steps es m)) <= maxNotifications)%nat.
Proof.
  revert m. induction es as [|e es IH]; intros m Hm; [exact Hm|].
  cbn [steps fold_left]. apply IH, step_bound, Hm.
Qed.

Lemma remove_first_In (c : nat) (l : list Card) (x : Card) :
  In x (remove_first c l) -> In x l.
Proof.
  induction l as [|y l IH]; cbn [remove_first]; [tauto|].
  destruct (Nat.eqb (card_id y) c); cbn [In]; tauto.
Qed.

Lemma remove_first_sorted (c : nat) (l : list Card) :
  StronglySorted lt (map card_id l) ->
  StronglySorted lt (map card_id (remove_first c l)).
Proof.
  induction l as [|y l IH]; cbn [remove_first map]; intros Hs; [exact Hs|].
  apply StronglySorted_inv in Hs as [Hs Hall].
  destruct (Nat.eqb (card_id y) c); [exact Hs|].
  cbn [map]. apply SSorted_cons; [apply IH, Hs|].
  rewrite List.Forall_forall in *. intros n Hn.
  apply in_map_iff in Hn as (z & <- & Hz).
  apply Hall, in_map. apply (remove_first_In c l z Hz).
Qed.

Lemma sorted_snoc (l : list nat) (n : nat) :
  StronglySorted lt l -> Forall (fun x => (x < n)%nat) l ->
  StronglySorted lt (l ++ [n]).
Proof.
  induction l as [|x l IH]; intros Hs Hlt; cbn [app].
  - apply SSorted_cons; [apply SSorted_nil|apply List.Forall_nil].
  - apply StronglySorted_inv in Hs as [Hs Hall].
    apply SSorted_cons.
    + apply IH; [exact Hs|]. apply (List.Forall_inv_tail Hlt).
    + apply List.Forall_app. split; [exact Hall|].
      apply List.Forall_cons; [apply (List.Forall_inv Hlt)|apply List.Forall_nil].
Qed.

Lemma show_order (o : Options) (m : Manager) :
  inCreationOrder m -> inCreationOrder (snd (show o m)).
Proof.
  intros [Hs Hb]. unfold show. cbn [snd].
  set (card := createNotificationElement (nextId m) (opt_status o) (opt_title o) (opt_message o)).
  assert (Hs' : StronglySorted lt (map card_id (notificationQueue m ++ [card]))).
  { rewrite map_app. apply sorted_snoc; [exact Hs|].
    rewrite List.Forall_forall in *. intros n Hn.
    apply in_map_iff in Hn as (z & <- & Hz). apply Hb, Hz. }
  assert (Hb' : Forall (fun c => (card_id c < S (nextId m))%nat) (notificationQueue m ++ [card])).
  { apply List.Forall_app. split.
    - rewrite List.Forall_forall in *. intros z Hz. specialize (Hb z Hz). cbn beta in Hb. lia.
    - apply List.Forall_cons; [cbn; lia|apply List.Forall_nil]. }
  unfold manageQueue. cbn [setTimeout setQueue notificationQueue].
  destruct (Nat.ltb maxNotifications (length (notificationQueue m ++ [card]))).
  - destruct (notificationQueue m ++ [card]) as [|old rest]; [split; assumption|].
    cbn [map] in Hs'. apply StronglySorted_inv in Hs' as [Hs' _].
    split; [exact Hs'|exact (List.Forall_inv_tail Hb')].
  - split; assumption.
Qed.

Lemma step_order (m : Manager) (e : Event) :
  inCreationOrder m -> inCreationOrder (step m e).
Proof.
  intros Hm. destruct e as [o|i|c]; cbn [step].
  - apply show_order, Hm.
  - destruct (timers m !! i) as [t|]; [|exact Hm].
    destruct (callback t); try exact Hm.
    destruct Hm as [Hs Hb]. split; cbn [run removeNow dropTimer notificationQueue nextId].
    + apply remove_first_sorted, Hs.
    + rewrite List.Forall_forall in *. intros z Hz.
      apply Hb, (remove_first_In _ _ _ Hz).
  - exact Hm.
Qed.

Lemma steps_order (es : list Event) (m : Manager) :
  inCreationOrder m -> inCreationOrder (steps es m).
Proof.
  revert m. induction es as [|e es IH]; intros m Hm; [exact Hm|].
  cbn [steps fold_left]. apply IH, step_order, Hm.
Qed.

Lemma sorted_head_absent (a : nat) (l : list nat) :
  Forall (lt a) l -> ~ In a l.
Proof.
  intros Hall Hin. rewrite List.Forall_forall in Hall. specialize (Hall a Hin). lia.
Qed.

Lemma sorted_NoDup (l : list nat) : StronglySorted lt l -> List.NoDup l.
Proof.
  induction l as [|a l IH]; intros Hs; [apply List.NoDup_nil|].
  apply StronglySorted_inv in Hs as [Hs Hall].
  apply List.NoDup_cons; [apply sorted_head_absent, Hall|apply IH, Hs].
Qed.

Lemma filter_all_in {A : Type} (p : A -> bool) (l : list A) :
  (forall x, In x l -> p x = true) -> List.filter p l = l.
Proof.
  induction l as [|x l IH]; intros Hp; [reflexivity|].
  cbn [List.filter]. rewrite (Hp x (or_introl eq_refl)), IH; [reflexivity|].
  intros y Hy. apply Hp. right. exact Hy.
Qed.

Lemma remove_first_absent (c : nat) (l : list Card) :
  ~ In c (map card_id l) -> remove_first c l = l.
Proof.
  induction l as [|x l IH]; intros Hnot; [reflexivity|].
  cbn [map In] in Hnot. cbn [remove_first].
  destruct (Nat.eqb_spec (card_id x) c) as [E|_]; [tauto|]. rewrite IH by tauto. reflexivity.
Qed.

Lemma remove_first_ids (c : nat) (l : list Card) :
  StronglySorted lt (map card_id l) ->
  map card_id (remove_first c l)
  = List.filter (fun i => negb (Nat.eqb i c)) (map card_id l).
Proof.
  induction l as [|x l IH]; intros Hs; [reflexivity|].
  cbn [map] in Hs. apply StronglySorted_inv in Hs as [Hs Hall].
  cbn [remove_first map List.filter].
  destruct (Nat.eqb_spec (card_id x) c) as [E|Hne]; cbn [negb].
  - symmetry. apply filter_all_in. intros i Hi.
    rewrite List.Forall_forall in Hall. specialize (Hall i Hi).
    apply negb_true_iff, Nat.eqb_neq. lia.
  - cbn [map]. rewrite IH by exact Hs. reflexivity.
Qed.

Lemma remove_first_In_ne (c : nat) (l : list Card) (x : Card) :
  StronglySorted lt (map card_id l) -> In x (remove_first c l) -> card_id x <> c.
Proof.
  intros Hs Hin E. apply (in_map card_id) in Hin.
  rewrite remove_first_ids in Hin by exact Hs.
  apply filter_In in Hin as [_ Hne]. rewrite E, Nat.eqb_refl in Hne. discriminate Hne.
Qed.

Lemma In_remove_first (c : nat) (l : list Card) (x : Card) :
  In x l -> card_id x <> c -> In x (remove_first c l).
Proof.
  induction l as [|y l IH]; intros Hin Hne; [destruct Hin|].
  cbn [remove_first]. destruct (Nat.eqb_spec (card_id y) c) as [E|_].
  - destruct Hin as [->|Hin]; [contradiction|exact Hin].
  - destruct Hin as [->|Hin]; [left; reflexivity|right; apply IH; assumption].
Qed.

Lemma show_coherent (o : Options) (m : Manager) :
  coherent m -> coherent (snd (show o m)).
Proof.
  intros (Hs & Hb & Hqc & Hcq). unfold show. cbn [snd].
  set (card := createNotificationElement (nextId m) (opt_status o) (opt_title o) (opt_message o)).
  unfold manageQueue. cbn [setTimeout setQueue notificationQueue].
  assert (Hs' : StronglySorted lt (map card_id (children m ++ [card]))).
  { rewrite map_app. apply sorted_snoc; [exact Hs|].
    rewrite List.Forall_forall in *. intros n Hn.
    apply in_map_iff in Hn as (z & <- & Hz). apply Hb, Hz. }
  assert (Hb' : Forall (fun c => (card_id c < S (nextId m))%nat) (children m ++ [card])).
  { apply List.Forall_app. split.
    - rewrite List.Forall_forall in *. intros z Hz. specialize (Hb z Hz). cbn beta in Hb. lia.
    - apply List.Forall_cons; [cbn; lia|apply List.Forall_nil]. }
  assert (Hin : forall x, In x (notificationQueue m ++ [card]) -> In x (children m ++ [card])).
  { intros x Hx. apply in_app_iff in Hx as [Hx|Hx]; apply in_app_iff; [left; apply Hqc, Hx|right; exact Hx]. }
  assert (Hout : forall x, In x (children m ++ [card]) ->
                           In x (notificationQueue m ++ [card]) \/ In (card_id x) (hideClass m)).
  { intros x Hx. apply in_app_iff in Hx as [Hx|Hx].
    - destruct (Hcq x Hx) as [Hq|Hh]; [left; apply in_app_iff; left; exact Hq|right; exact Hh].
    - left. apply in_app_iff. right. exact Hx. }
  destruct (Nat.ltb maxNotifications (length (notificationQueue m ++ [card]))).
  - destruct (notificationQueue m ++ [card]) as [|old rest] eqn:Hq.
    + repeat split; assumption.
    + cbn [dismiss setTimeout setQueue children notificationQueue hideClass nextId].
      split; [exact Hs'|]. split; [exact Hb'|]. split.
      * intros x Hx. apply Hin. right. exact Hx.
      * intros x Hx. destruct (Hout x Hx) as [[<-|Hr]|Hh].
        -- right. apply in_app_iff. right. left. reflexivity.
        -- left. exact Hr.
        -- right. apply in_app_iff. left. exact Hh.
  - repeat split; assumption.
Qed.

Lemma step_coherent (m : Manager) (e : Event) :
  inCreationOrder m -> coherent m -> coherent (step m e).
Proof.
  intros [Hqs _] Hm.
  assert (Hdismiss : forall c, coherent (dismiss c m)).
  { intros c. destruct Hm as (Hs & Hb & Hqc & Hcq).
    repeat split; cbn [dismiss setTimeout children notificationQueue hideClass nextId];
      try assumption.
    intros x Hx. destruct (Hcq x Hx) as [Hq|Hh]; [left; exact Hq|].
    right. apply in_app_iff. left. exact Hh. }
  destruct e as [o|i|c]; cbn [step].
  - apply show_coherent, Hm.
  - destruct (timers m !! i) as [t|]; [|exact Hm].
    destruct (callback t) as [c|c|c]; cbn [run].
    + exact Hm.
    + destruct Hm as (Hs & Hb & Hqc & Hcq).
      repeat split;
        cbn [dismiss setTimeout dropTimer children notificationQueue hideClass nextId];
        try assumption.
      intros x Hx. destruct (Hcq x Hx) as [Hq|Hh]; [left; exact Hq|].
      right. apply in_app_iff. left. exact Hh.
    + destruct Hm as (Hs & Hb & Hqc & Hcq).
      cbn [removeNow dropTimer children notificationQueue hideClass nextId].
      split; [apply remove_first_sorted, Hs|]. split; [|split].
      * rewrite List.Forall_forall in *. intros z Hz. apply Hb, (remove_first_In _ _ _ Hz).
      * intros x Hx. apply In_remove_first.
        -- apply Hqc, (remove_first_In _ _ _ Hx).
        -- apply (remove_first_In_ne c _ x Hqs Hx).
      * intros x Hx. pose proof (remove_first_In_ne c _ x Hs Hx) as Hne.
        destruct (Hcq x (remove_first_In _ _ _ Hx)) as [Hq|Hh]; [|right; exact Hh].
        left. apply In_remove_first; assumption.
  - apply Hdismiss.
Qed.

Lemma steps_coherent (es : list Event) (m : Manager) :
  inCreationOrder m -> coherent m -> coherent (steps es m) /\ inCreationOrder (steps es m).
Proof.
  revert m. induction es as [|e es IH]; intros m Ho Hc; [split; assumption|].
  cbn [steps fold_left]. apply IH; [apply step_order, Ho|apply step_coherent; assumption].
Qed.

Lemma new_coherent : inCreationOrder new /\ coherent new.
Proof.
  split; [split; [apply SSorted_nil|apply List.Forall_nil]|].
  split; [apply SSorted_nil|]. split; [apply List.Forall_nil|].
  split; intros c [].
Qed.

(** What [show] leaves when it finds the queue full. *)
Lemma show_full (m : Manager) (o : Options) (oldest : Card) (rest : list Card) :
  notificationQueue m = oldest :: rest ->
  length rest = 2%nat ->
  let card :=
    createNotificationElement (nextId m) (opt_status o) (opt_title o) (opt_message o) in
  snd (show o m)
  = {| children := children m ++ [card];
       notificationQueue := rest ++ [card];
       showClass := showClass m;
       hideClass := hideClass m ++ [card_id oldest];
       timers := timers m ++ [mkTimer 10 (AddShowClass (card_id card));
                              mkTimer (default 5000 (opt_duration o))
                                (AutoDismiss (card_id card));
                              mkTimer 400 (RemoveCard (card_id oldest))];
       nextId := S (nextId m) |}.
Proof.
  intros Hq Hlen. cbn zeta.
  unfold show, manageQueue. cbn [fst snd setTimeout setQueue notificationQueue].
  rewrite Hq. cbn [app length]. rewrite length_app, Hlen.
  cbn [length Nat.add Nat.ltb Nat.leb maxNotifications].
  unfold dismiss, setTimeout, setQueue.
  cbn [notificationQueue hideClass children timers showClass nextId].
  rewrite <- !app_assoc. reflexivity.
Qed.

(** C5: after any run of calls to [show], interleaved with timers coming
    due and clicks on close buttons, the queue of a manager holds at most
    [maxNotifications] = 3 cards; when [show] finds the queue full, the
    card at its head (the oldest) is the one evicted: it leaves the queue
    and is dismissed within the call (class hide, removal scheduled),
    whatever timers are pending, while the other two cards stay, followed
    by the new one; when the queue is not full, nothing is evicted. The
    head is the oldest card because the queue always lists its cards in
    the order of their creation. In every state a manager can reach, the
    evicted card is on screen when [show] is called, and the removal
    scheduled by the eviction, once it comes due, takes that card and no
    other out of the container, the queue staying as the eviction left
    it. *)
Theorem queue_bounded_fifo_eviction :
  (forall es : list Event,
      (length (notificationQueue (steps es new)) <= 3)%nat /\
      StronglySorted lt (map card_id (notificationQueue (steps es new)))) /\
  (forall (m : Manager) (o : Options) (oldest : Card) (rest : list Card),
      notificationQueue m = oldest :: rest ->
      length rest = 2%nat ->
      let card := fst (show o m) in
      let m' := snd (show o m) in
      notificationQueue m' = rest ++ [card] /\
      hideClass m' = hideClass m ++ [card_id oldest] /\
      children m' = children m ++ [card] /\
      timers m'
      = timers m ++ [mkTimer 10 (AddShowClass (card_id card));
                     mkTimer (default 5000 (opt_duration o)) (AutoDismiss (card_id card));
                     mkTimer 400 (RemoveCard (card_id oldest))]) /\
  (forall (m : Manager) (o : Options),
      (length (notificationQueue m) < 3)%nat ->
      let card := fst (show o m) in
      let m' := snd (show o m) in
      notificationQueue m' = notificationQueue m ++ [card] /\
      hideClass m' = hideClass m) /\
  (forall (es : list Event) (o : Options) (oldest : Card) (rest : list Card),
      let m := steps es new in
      notificationQueue m = oldest :: rest ->
      length rest = 2%nat ->
      let card := fst (show o m) in
      let m' := snd (show o m) in
      let removal := (length (timers m) + 2)%nat in
      let m'' := step m' (Fire removal) in
      In oldest (children m) /\
      timers m' !! removal = Some (mkTimer 400 (RemoveCard (card_id oldest))) /\
      ~ In (card_id oldest) (map card_id (children m'')) /\
      map card_id (children m'')
      = List.filter (fun i => negb (Nat.eqb i (card_id oldest))) (map card_id (children m')) /\
      (forall c, In c (children m') -> card_id c <> card_id oldest -> In c (children m'')) /\
      notificationQueue m'' = rest ++ [card]).
Proof.
  split; [|split; [|split]].
  - intros es. split.
    + apply (steps_bound es new). cbn. unfold maxNotifications. lia.
    + apply (steps_order es new). split; [apply SSorted_nil|apply List.Forall_nil].
  - intros m o oldest rest Hq Hlen. cbn zeta.
    unfold show, manageQueue. cbn [fst snd setTimeout setQueue notificationQueue].
    rewrite Hq. cbn [app length]. rewrite length_app, Hlen. cbn [length Nat.add Nat.ltb Nat.leb maxNotifications].
    cbn [dismiss setTimeout setQueue notificationQueue hideClass children timers].
    rewrite <- !app_assoc. repeat split.
  - intros m o Hlen. cbn zeta.
    unfold show, manageQueue. cbn [fst snd setTimeout setQueue notificationQueue].
    destruct (Nat.ltb_spec maxNotifications (length (notificationQueue m ++ [createNotificationElement (nextId m) (opt_status o) (opt_title o) (opt_message o)]))) as [Hlt|Hle].
    + rewrite length_app in Hlt. cbn [length] in Hlt. unfold maxNotifications in Hlt. lia.
    + split; reflexivity.
  - intros es o oldest rest. cbn zeta. intros Hq Hlen.
    destruct (steps_coherent es new (proj1 new_coherent) (proj2 new_coherent))
      as [Hc [Hqs Hqb]].
    pose proof (show_coherent o _ Hc) as (Hs' & _).
    pose proof (show_full _ o oldest rest Hq Hlen) as Hshow. cbn zeta in Hshow.
    change (fst (show o (steps es new)))
      with (createNotificationElement (nextId (steps es new))
              (opt_status o) (opt_title o) (opt_message o)).
    set (m := steps es new) in *.
    set (card := createNotificationElement (nextId m) (opt_status o) (opt_title o)
                   (opt_message o)) in *.
    assert (Hlook : timers (snd (show o m)) !! (length (timers m) + 2)%nat
                    = Some (mkTimer 400 (RemoveCard (card_id oldest)))).
    { rewrite Hshow. cbn [timers]. rewrite lookup_app_r by lia.
      replace (length (timers m) + 2 - length (timers m))%nat with 2%nat by lia.
      reflexivity. }
    assert (Hfired : step (snd (show o m)) (Fire (length (timers m) + 2))
                     = removeNow (card_id oldest)
                         (dropTimer (length (timers m) + 2) (snd (show o m)))).
    { cbn [step]. rewrite Hlook. reflexivity. }
    rewrite Hfired. cbn [removeNow dropTimer children notificationQueue].
    pose proof (remove_first_ids (card_id oldest) _ Hs') as Hids.
    assert (Hfresh : ~ In (card_id oldest) (map card_id (rest ++ [card]))).
    { rewrite Hq in Hqs, Hqb. cbn [map] in Hqs.
      apply StronglySorted_inv in Hqs as [_ Hall].
      rewrite map_app, in_app_iff. intros [Hin|[E|[]]].
      - apply (sorted_head_absent _ _ Hall Hin).
      - apply List.Forall_inv in Hqb. cbn [card card_id createNotificationElement] in E. lia. }
    split; [destruct Hc as (_ & _ & Hqc & _); apply Hqc; rewrite Hq; left; reflexivity|].
    split; [exact Hlook|]. split; [|split; [exact Hids|split]].
    + rewrite Hids. intros Hin. apply filter_In in Hin as [_ Hne].
      rewrite Nat.eqb_refl in Hne. discriminate Hne.
    + intros c Hin Hne. apply In_remove_first; assumption.
    + rewrite Hshow. cbn [notificationQueue]. apply remove_first_absent, Hfresh.
Qed.

End QueueFacts.

Section QueueScenario.

Import Notify.

Lemma queue_bounded_fifo_eviction_witness :
  let shown := snd (show fourth threeShown) in
  let removed := step shown (Fire 8) in
  map card_id (notificationQueue threeShown) = [0; 1; 2]%nat /\
  map card_id (notificationQueue shown) = [1; 2; 3]%nat /\
  hideClass shown = [0%nat] /\
  map card_id (children shown) = [0; 1; 2; 3]%nat /\
  map card_id (children removed) = [1; 2; 3]%nat /\
  map card_id (notificationQueue removed) = [1; 2; 3]%nat.
Proof.
  cbn zeta.
  destruct queue_bounded_fifo_eviction as (_ & Hevict & _ & Hremoval).
  destruct (Hevict threeShown fourth
              (mkCard 0 "preparing" "Cooking Started!" "a")
              [mkCard 1 "ready" "Order Ready!" "b";
               mkCard 2 "completed" "Enjoy Your Meal!" "c"]
              eq_refl eq_refl) as (Hq & Hh & Hc & _).
  destruct (Hremoval
              [Show (mkOptions "preparing" (Some "Cooking Started!") (Some "a") None);
               Show (mkOptions "ready" (Some "Order Ready!") (Some "b") None);
               Show (mkOptions "completed" (Some "Enjoy Your Meal!") (Some "c") None)]
              fourth
              (mkCard 0 "preparing" "Cooking Started!" "a")
              [mkCard 1 "ready" "Order Ready!" "b";
               mkCard 2 "completed" "Enjoy Your Meal!" "c"]
              eq_refl eq_refl) as (_ & _ & _ & Hids & _ & Hq').
  split; [reflexivity|]. split; [rewrite Hq; reflexivity|].
  split; [rewrite Hh; reflexivity|]. split; [rewrite Hc; reflexivity|].
  split.
  - exact Hids.
  - exact (f_equal (map card_id) Hq').
Defined.

End QueueScenario.

(** ** Change subscription *)

Section SubscriptionFacts.

Import Subscription.

Lemma unsubscribe_before_subscribe (id : string) (c : Client) :
  unsubscribe (new id) c = c.
Proof. reflexivity. Qed.

Lemma removeChannel_twice (r : nat) (c : Client) :
  removeChannel r (removeChannel r c) = removeChannel r c.
Proof.
  unfold removeChannel. cbn [channels nextRef]. f_equal.
  induction (channels c) as [|ch l IH]; [reflexivity|].
  cbn [List.filter]. destruct (negb (Nat.eqb (ref ch) r)) eqn:E; [|exact IH].
  cbn [List.filter]. rewrite E, IH. reflexivity.
Qed.

Lemma unsubscribe_twice (s : OrderSubscription) (c : Client) :
  unsubscribe s (unsubscribe s c) = unsubscribe s c.
Proof.
  unfold unsubscribe. destruct (subscription s); [apply removeChannel_twice|reflexivity].
Qed.

(** Whatever the order, the items channel outlives [unsubscribe]. *)
Lemma items_channel_survives (id : string) :
  let opened := subscribe (new id) emptyClient in
  topics (unsubscribe (fst opened) (snd opened)) = [("order-items-" ++ id)%string].
Proof. reflexivity. Qed.

(** C6 on the code: after [subscribe] then [unsubscribe] for order
    ORD-1001 the orders channel is gone but the order-items channel is
    still open, with its binding on order_items; calling [unsubscribe]
    again changes nothing. When the subscription was made under the uuid
    of the order's row, the id order_items rows refer to, an update of
    an item of that order still reaches the callback after
    [unsubscribe]. *)
Theorem unsubscribe_leaves_items_channel :
  let opened := subscribe (new "ORD-1001") emptyClient in
  let closed := unsubscribe (fst opened) (snd opened) in
  let uuid := "a0eebc99-9c0b-4ef8-bb6d-6bb9bd380a11" in
  let opened' := subscribe (new uuid) emptyClient in
  let closed' := unsubscribe (fst opened') (snd opened') in
  topics (snd opened) = ["order-ORD-1001"; "order-items-ORD-1001"] /\
  topics closed = ["order-items-ORD-1001"] /\
  channels closed = [mkChannel 1 "order-items-ORD-1001" OrderItems "order_id=eq.ORD-1001"] /\
  unsubscribe (fst opened) closed = closed /\
  topics closed' = ["order-items-a0eebc99-9c0b-4ef8-bb6d-6bb9bd380a11"] /\
  deliver (ItemChange (mkItemRow 0xa0eebc999c0b4ef8bb6d6bb9bd380a11)) (fst opened') closed'
  = [StatusOnly None] /\
  unsubscribe (fst opened') closed' = closed'.
Proof. vm_compute. repeat split. Qed.

End SubscriptionFacts.

(** ** Delivery bridge: push *)

Section PushFacts.

Import ServiceWorker.

(** C7: when [event.data.json()] throws, the push handler still displays
    a system notification; its body is the raw payload text, every other
    field is the default one, [data] is undefined, and the two actions
    are offered. *)
Theorem push_parse_failure_falls_back (d : PushMessageData)
    (Hfail : json d = None) :
  onPush (Some d)
  = {| n_title := Some (JStr "Sarawak Food Court");
       n_body := Some (JStr (text d));
       n_icon := Some (JStr "/assets/logo.png");
       n_badge := Some (JStr "/assets/logo.png");
       n_vibrate := Some (JArr [JNum 200; JNum 100; JNum 200]);
       n_tag := Some (JStr "order-update");
       n_requireInteraction := Some (JBool false);
       n_data := None;
       n_actions :=
         [mkAction "view" "View Order" "/assets/icons/view.png";
          mkAction "close" "Dismiss" "/assets/icons/close.png"] |}.
Proof.
  unfold onPush, resolvePayload. rewrite Hfail. unfold defaultNotification.
  f_equal; vm_compute; reflexivity.
Qed.

Lemma push_parse_failure_falls_back_witness :
  n_body (onPush (Some (mkPush "Your order is on the way" None)))
  = Some (JStr "Your order is on the way") /\
  n_title (onPush (Some (mkPush "Your order is on the way" None)))
  = Some (JStr "Sarawak Food Court").
Proof.
  rewrite (push_parse_failure_falls_back (mkPush "Your order is on the way" None) eq_refl).
  split; reflexivity.
Defined.

End PushFacts.

(** ** Resource cache *)

Section CacheFacts.

Import ServiceWorker.

Lemma filter_all {A : Type} (p : A -> bool) (l : list A) :
  (forall x, p x = true) -> List.filter p l = l.
Proof.
  intros Hp. induction l as [|x l IH]; [reflexivity|].
  cbn [List.filter]. rewrite Hp, IH. reflexivity.
Qed.

Lemma filter_twice {A : Type} (p q : A -> bool) (l : list A) :
  List.filter p (List.filter q l) = List.filter (fun x => q x && p x) l.
Proof.
  induction l as [|x l IH]; [reflexivity|].
  cbn [List.filter]. destruct (q x); cbn [andb List.filter]; rewrite IH; reflexivity.
Qed.

Lemma delete_loop (names : list string) (s : list (string * gmap (string * string) Response)) :
  fold_left
    (fun st cacheName =>
       if negb (String.eqb cacheName CACHE_NAME) then caches_delete cacheName st else st)
    names s
  = List.filter (fun kv => isCurrent kv || negb (existsb (String.eqb (fst kv)) names)) s.
Proof.
  revert s. induction names as [|n names IH]; intros s; cbn [fold_left].
  - symmetry. apply filter_all. intros kv. cbn [existsb negb]. apply orb_true_r.
  - destruct (String.eqb_spec n CACHE_NAME) as [->|Hn]; cbn [negb]; rewrite IH.
    + apply List.filter_ext. intros kv. unfold isCurrent. cbn [existsb].
      destruct (String.eqb (fst kv) CACHE_NAME); reflexivity.
    + unfold caches_delete. rewrite filter_twice. apply List.filter_ext.
      intros kv. unfold isCurrent. cbn [existsb].
      destruct (String.eqb_spec (fst kv) CACHE_NAME) as [E|_].
      * rewrite E. destruct (String.eqb_spec CACHE_NAME n) as [E'|_]; [congruence|reflexivity].
      * cbn [orb]. rewrite negb_orb. reflexivity.
Qed.

Lemma activate_keeps_current (s : list (string * gmap (string * string) Response)) :
  activate s = List.filter isCurrent s.
Proof.
  unfold activate. rewrite delete_loop. apply List.filter_ext_in.
  intros kv Hin.
  assert (Hk : existsb (String.eqb (fst kv)) (keys s) = true).
  { apply existsb_exists. exists (fst kv). split; [|apply String.eqb_refl].
    unfold keys. apply in_map. exact Hin. }
  rewrite Hk. apply orb_false_r.
Qed.

Lemma activate_idempotent (s : list (string * gmap (string * string) Response)) :
  activate (activate s) = activate s.
Proof.
  rewrite !activate_keeps_current, filter_twice. apply List.filter_ext.
  intros kv. destruct (isCurrent kv); reflexivity.
Qed.

Lemma no_current_none_kept (s : list (string * gmap (string * string) Response)) :
  ~ In CACHE_NAME (keys s) -> List.filter isCurrent s = [].
Proof.
  induction s as [|[k c] s IH]; intros Hnot; [reflexivity|].
  cbn [List.filter]. unfold isCurrent at 1. cbn [fst]. cbn [keys map fst In] in Hnot.
  destruct (String.eqb_spec k CACHE_NAME) as [E|_]; [tauto|].
  apply IH. unfold keys. tauto.
Qed.

Lemma one_current_kept (s : list (string * gmap (string * string) Response)) :
  NoDup (keys s) -> In CACHE_NAME (keys s) -> keys (List.filter isCurrent s) = [CACHE_NAME].
Proof.
  induction s as [|[k c] s IH]; intros Hnd Hin; [destruct Hin|].
  cbn [keys map fst] in Hnd, Hin. apply NoDup_cons in Hnd as [Hk Hnd].
  cbn [List.filter]. unfold isCurrent at 1. cbn [fst].
  destruct (String.eqb_spec k CACHE_NAME) as [E|Hne].
  - subst k. rewrite no_current_none_kept; [reflexivity|].
    intros H. apply Hk. apply list_elem_of_In. exact H.
  - apply IH; [exact Hnd|]. destruct Hin as [E|Hin]; [contradiction|exact Hin].
Qed.

(** The install handler leaves a storage that activation can rely on:
    names stay distinct and the current generation exists. *)
Lemma keys_cache_put (name : string) (req : string * string) (resp : Response)
    (s : list (string * gmap (string * string) Response)) :
  keys (cache_put name req resp s) = keys s.
Proof.
  unfold keys, cache_put. destruct (putAccepts req resp); [|reflexivity].
  rewrite map_map. apply map_ext.
  intros kv. destruct (String.eqb (fst kv) name); reflexivity.
Qed.

Lemma hasCache_In (name : string) (s : list (string * gmap (string * string) Response)) :
  hasCache name s = true <-> In name (keys s).
Proof.
  unfold hasCache. rewrite existsb_exists. split.
  - intros (k & Hin & E). apply String.eqb_eq in E. subst k. exact Hin.
  - intros Hin. exists name. split; [exact Hin|apply String.eqb_refl].
Qed.

Lemma open_ready (name : string) (s : list (string * gmap (string * string) Response)) :
  NoDup (keys s) ->
  NoDup (keys (caches_open name s)) /\ In name (keys (caches_open name s)).
Proof.
  intros Hnd. unfold caches_open.
  destruct (hasCache name s) eqn:E.
  - split; [exact Hnd|]. apply hasCache_In. exact E.
  - unfold keys in *. rewrite map_app. cbn [map fst]. split.
    + apply NoDup_app. split; [exact Hnd|]. split.
      * intros x Hx Hx'. apply list_elem_of_In in Hx, Hx'.
        destruct Hx' as [<-|[]].
        apply (proj2 (hasCache_In name s)) in Hx. congruence.
      * apply NoDup_singleton.
    + apply in_or_app. right. left. reflexivity.
Qed.

Lemma install_ready (net : Network) (s : list (string * gmap (string * string) Response)) :
  NoDup (keys s) ->
  NoDup (keys (snd (install net s))) /\ In CACHE_NAME (keys (snd (install net s))).
Proof.
  intros Hnd. unfold install.
  destruct (fetchAll net urlsToCache) as [rs|]; cbn [snd]; [|apply open_ready, Hnd].
  assert (Hk : forall st,
             keys (fold_left (fun st ur => cache_put CACHE_NAME (GET (fst ur)) (snd ur) st) rs st)
             = keys st).
  { induction rs as [|r rs IH]; intros st; [reflexivity|].
    cbn [fold_left]. rewrite IH. apply keys_cache_put. }
  rewrite Hk. apply open_ready, Hnd.
Qed.

Lemma kept_names_are_current (s : list (string * gmap (string * string) Response))
    (name : string) :
  In name (keys (activate s)) -> name = CACHE_NAME.
Proof.
  rewrite activate_keeps_current. unfold keys. intros Hin.
  apply in_map_iff in Hin as (kv & <- & Hkv).
  apply filter_In in Hkv as [_ Hcur]. apply String.eqb_eq. exact Hcur.
Qed.

(** C8: activation deletes every cache whose name differs from the current
    generation tag, and a second activation changes nothing more; on a
    storage that holds the current generation, and so on the storage the
    install handler leaves whatever the network answered, exactly that one
    generation is present after the first activation and after the
    second. Cache names are distinct, as in any cache storage. *)
Theorem activation_keeps_one_generation
    (s : list (string * gmap (string * string) Response))
    (Hdistinct : NoDup (keys s)) :
  (forall name, name <> CACHE_NAME -> ~ In name (keys (activate s))) /\
  activate (activate s) = activate s /\
  (In CACHE_NAME (keys s) ->
   keys (activate s) = [CACHE_NAME] /\
   keys (activate (activate s)) = [CACHE_NAME]) /\
  (forall net : Network,
      let installed := snd (install net s) in
      keys (activate installed) = [CACHE_NAME] /\
      keys (activate (activate installed)) = [CACHE_NAME]).
Proof.
  assert (Hone : forall st, NoDup (keys st) -> In CACHE_NAME (keys st) ->
                            keys (activate st) = [CACHE_NAME] /\
                            keys (activate (activate st)) = [CACHE_NAME]).
  { intros st Hd Hc. rewrite activate_idempotent, activate_keeps_current.
    split; apply one_current_kept; assumption. }
  split; [|split; [|split]].
  - intros name Hne Hin. apply Hne, (kept_names_are_current s name Hin).
  - apply activate_idempotent.
  - intros Hcurrent. apply Hone; assumption.
  - intros net. cbn zeta.
    destruct (install_ready net s Hdistinct) as [Hd Hc]. apply Hone; assumption.
Qed.

End CacheFacts.

Section CacheScenario.

Import ServiceWorker.

Lemma activation_keeps_one_generation_witness :
  keys (activate oldAndNew) = [CACHE_NAME] /\
  keys (activate (activate oldAndNew)) = [CACHE_NAME].
Proof.
  assert (Hd : NoDup (keys oldAndNew)).
  { apply (bool_decide_unpack _). vm_compute. reflexivity. }
  assert (Hc : In CACHE_NAME (keys oldAndNew)).
  { unfold oldAndNew. cbn [keys map fst In]. tauto. }
  destruct (activation_keeps_one_generation oldAndNew Hd) as (_ & _ & Hone & _).
  exact (Hone Hc).
Defined.

Lemma hasCache_open (name : string) (s : list (string * gmap (string * string) Response)) :
  hasCache name (caches_open name s) = true.
Proof.
  unfold caches_open. destruct (hasCache name s) eqn:E; [exact E|].
  unfold hasCache, keys. rewrite map_app, existsb_app. cbn [map fst existsb].
  rewrite String.eqb_refl. apply orb_true_iff. right. reflexivity.
Qed.

Lemma matchIn_open (name : string) (req : string * string)
    (s : list (string * gmap (string * string) Response)) :
  matchIn req (caches_open name s) = matchIn req s.
Proof.
  unfold caches_open. destruct (hasCache name s); [reflexivity|].
  induction s as [|[k c] s IH]; cbn [app matchIn].
  - rewrite lookup_empty. reflexivity.
  - destruct (c !! req); [reflexivity|exact IH].
Qed.

Lemma caches_match_open (name : string) (req : string * string)
    (s : list (string * gmap (string * string) Response)) :
  caches_match req (caches_open name s) = caches_match req s.
Proof. unfold caches_match. rewrite matchIn_open. reflexivity. Qed.

Lemma cacheOf_open (name name' : string)
    (s : list (string * gmap (string * string) Response)) :
  cacheOf name (caches_open name' s) = cacheOf name s.
Proof.
  unfold caches_open. destruct (hasCache name' s); [reflexivity|].
  induction s as [|[k c] s IH]; cbn [app cacheOf].
  - destruct (String.eqb name' name); reflexivity.
  - destruct (String.eqb k name); [reflexivity|exact IH].
Qed.

Lemma cacheOf_put_rejected (name name' : string) (q : string * string) (r : Response)
    (s : list (string * gmap (string * string) Response)) :
  putAccepts q r = false -> cacheOf name (cache_put name' q r s) = cacheOf name s.
Proof. intros H. unfold cache_put. rewrite H. reflexivity. Qed.

Lemma not_GET_rejected (q : string * string) (r : Response) :
  fst q <> "GET" -> putAccepts q r = false.
Proof.
  intros H. unfold putAccepts. rewrite (proj2 (String.eqb_neq _ _) H). reflexivity.
Qed.

Lemma handleFetch_onlyGET (net : Network) (q : string * string)
    (s : list (string * gmap (string * string) Response)) :
  onlyGET s -> onlyGET (snd (handleFetch net q s)).
Proof.
  intros Hs. unfold handleFetch.
  destruct (caches_match q s); [exact Hs|].
  destruct (net q) as [fr|]; cbn [snd]; [|exact Hs].
  assert (Ho : onlyGET (caches_open CACHE_NAME s)).
  { unfold caches_open. destruct (hasCache CACHE_NAME s); [exact Hs|].
    intros name c req resp Hin Hc. apply in_app_iff in Hin as [Hin|[E|[]]].
    - apply (Hs name c req resp Hin Hc).
    - injection E as _ <-. rewrite lookup_empty in Hc. discriminate Hc. }
  unfold cache_put. destruct (putAccepts q fr) eqn:Hacc; [|exact Ho].
  intros name c req resp Hin Hc. apply in_map_iff in Hin as ([k c0] & E & Hin).
  cbn [fst snd] in E. destruct (String.eqb k CACHE_NAME).
  - injection E as _ <-. destruct (decide (q = req)) as [<-|Hne].
    + unfold putAccepts in Hacc. apply andb_true_iff in Hacc as [Hg _].
      apply String.eqb_eq, Hg.
    + rewrite lookup_insert_ne in Hc by exact Hne. apply (Ho k c0 req resp Hin Hc).
  - injection E as <- <-. apply (Ho k c0 req resp Hin Hc).
Qed.

(** C9: the fetch handler never stores a request with a side-effecting
    method, and such a request never takes part in the cache-first path:
    along every run of intercepted requests all stored requests stay GET
    requests; and for every request whose method is not GET the lookup
    finds nothing, the contents of every cache are left as they were, the
    answer is the network's (the offline page when the fetch fails), and
    the same request arriving again goes to the network again. The
    handler has no method test of its own: it is [caches.match] and
    [cache.put] that refuse such requests, and the rejected put is not
    awaited. *)
Theorem fetch_never_caches_side_effecting_requests :
  (forall (events : list (Network * (string * string)))
          (s : list (string * gmap (string * string) Response)),
      onlyGET s -> onlyGET (serve events s)) /\
  (forall (net : Network) (request : string * string)
          (s : list (string * gmap (string * string) Response)),
      fst request <> "GET" ->
      let answer := fst (handleFetch net request s) in
      let s' := snd (handleFetch net request s) in
      caches_match request s = None /\
      (forall name, cacheOf name s' = cacheOf name s) /\
      answer = match net request with
               | Some fetched => Some fetched
               | None => caches_match (GET "/offline.html") s
               end /\
      forall net' : Network,
        fst (handleFetch net' request s')
        = match net' request with
          | Some fetched => Some fetched
          | None => caches_match (GET "/offline.html") s
          end).
Proof.
  split.
  - intros events. unfold serve.
    induction events as [|[net q] events IH]; intros s Hs; [exact Hs|].
    cbn [fold_left fst snd]. apply IH, handleFetch_onlyGET, Hs.
  - intros net request s Hmethod. cbn zeta.
    assert (Hmiss : forall st, caches_match request st = None).
    { intros st. unfold caches_match.
      rewrite (proj2 (String.eqb_neq _ _) Hmethod). reflexivity. }
    assert (Hrun : forall n st,
               handleFetch n request st
               = match n request with
                 | Some fetched =>
                     (Some fetched,
                      cache_put CACHE_NAME request fetched (caches_open CACHE_NAME st))
                 | None => (caches_match (GET "/offline.html") st, st)
                 end).
    { intros n st. unfold handleFetch. rewrite Hmiss. reflexivity. }
    split; [apply Hmiss|]. split; [|split].
    + intros name. rewrite Hrun. destruct (net request) as [fr|]; cbn [snd]; [|reflexivity].
      rewrite cacheOf_put_rejected by (apply not_GET_rejected, Hmethod).
      apply cacheOf_open.
    + rewrite Hrun. destruct (net request); reflexivity.
    + intros net'. rewrite (Hrun net'). destruct (net' request) as [fr'|]; cbn [fst];
        [reflexivity|].
      rewrite (Hrun net). destruct (net request) as [fr|]; cbn [snd]; [|reflexivity].
      unfold cache_put. rewrite (not_GET_rejected request fr Hmethod).
      apply caches_match_open.
Qed.

Lemma fetch_never_caches_side_effecting_requests_witness :
  let order := ("POST", "/api/orders") in
  let online : Network := fun _ => Some (mkResponse 201 "order accepted") in
  let s' := snd (handleFetch online order [(CACHE_NAME, ∅)]) in
  cacheOf CACHE_NAME s' = ∅ /\
  fst (handleFetch (fun _ => None) order s') = None.
Proof.
  cbn zeta.
  destruct fetch_never_caches_side_effecting_requests as [_ Hpost].
  destruct (Hpost (fun _ => Some (mkResponse 201 "order accepted"))
                  ("POST", "/api/orders") [(CACHE_NAME, ∅)])
    as (_ & Hsame & _ & Hagain).
  - discriminate.
  - split; [rewrite Hsame; reflexivity|]. rewrite Hagain. reflexivity.
Defined.

End CacheScenario.



(** * Further properties of the code *)

(** ** Resource cache: lookups and stores *)

Section CacheLookups.

Import ServiceWorker.

Lemma matchIn_put_other (name : string) (q req : string * string) (r : Response)
    (s : list (string * gmap (string * string) Response)) :
  q <> req -> matchIn req (cache_put name q r s) = matchIn req s.
Proof.
  intros Hne. unfold cache_put. destruct (putAccepts q r); [|reflexivity].
  induction s as [|[k c] s IH]; [reflexivity|].
  cbn [map fst snd]. destruct (String.eqb k name); cbn [matchIn].
  - rewrite lookup_insert_ne by exact Hne. rewrite IH. reflexivity.
  - rewrite IH. reflexivity.
Qed.

Lemma caches_match_put_other (name : string) (q req : string * string) (r : Response)
    (s : list (string * gmap (string * string) Response)) :
  q <> req -> caches_match req (cache_put name q r s) = caches_match req s.
Proof.
  intros Hne. unfold caches_match. rewrite matchIn_put_other by exact Hne. reflexivity.
Qed.





Lemma hasCache_put (name name' : string) (q : string * string) (r : Response)
    (s : list (string * gmap (string * string) Response)) :
  hasCache name (cache_put name' q r s) = hasCache name s.
Proof. unfold hasCache. rewrite keys_cache_put. reflexivity. Qed.

Lemma cacheOf_put_other (name name' : string) (q : string * string) (r : Response)
    (s : list (string * gmap (string * string) Response)) :
  name <> name' -> cacheOf name (cache_put name' q r s) = cacheOf name s.
Proof.
  intros Hne. unfold cache_put. destruct (putAccepts q r); [|reflexivity].
  induction s as [|[k c] s IH]; [reflexivity|].
  cbn [map fst snd]. destruct (String.eqb_spec k name') as [E|Hk]; cbn [cacheOf].
  - rewrite (proj2 (String.eqb_neq k name)) by congruence. exact IH.
  - destruct (String.eqb k name); [reflexivity|exact IH].
Qed.

Lemma cacheOf_put_same (name : string) (q : string * string) (r : Response)
    (s : list (string * gmap (string * string) Response)) :
  hasCache name s = true -> putAccepts q r = true ->
  cacheOf name (cache_put name q r s) = <[q := r]> (cacheOf name s).
Proof.
  intros Hhas Hacc. unfold cache_put, hasCache in *. rewrite Hacc. clear Hacc.
  induction s as [|[k c] s IH]; [discriminate Hhas|].
  cbn [keys map fst existsb] in Hhas. cbn [map fst snd].
  destruct (String.eqb_spec k name) as [E|Hk]; cbn [cacheOf].
  - rewrite (proj2 (String.eqb_eq k name) E). reflexivity.
  - rewrite (proj2 (String.eqb_neq k name) Hk). apply IH.
    rewrite (proj2 (String.eqb_neq name k)) in Hhas by congruence. exact Hhas.
Qed.

Lemma cacheOf_absent (name : string)
    (s : list (string * gmap (string * string) Response)) :
  ~ In name (keys s) -> cacheOf name s = ∅.
Proof.
  induction s as [|[k c] s IH]; intros Hnot; [reflexivity|].
  cbn [keys map fst In] in Hnot. cbn [cacheOf].
  destruct (String.eqb_spec k name) as [E|_]; [tauto|]. apply IH. unfold keys. tauto.
Qed.

End CacheLookups.

(** ** Resource cache: the fetch handler *)

Section FetchExtras.

Import ServiceWorker.



Lemma handleFetch_keeps_hit (net : Network) (q req : string * string) (r : Response)
    (s : list (string * gmap (string * string) Response)) :
  caches_match req s = Some r ->
  caches_match req (snd (handleFetch net q s)) = Some r.
Proof.
  intros Hhit. unfold handleFetch.
  destruct (caches_match q s) eqn:Hq; [exact Hhit|].
  destruct (net q) as [fr|]; cbn [snd]; [|exact Hhit].
  assert (Hne : q <> req) by (intros ->; congruence).
  rewrite caches_match_put_other by exact Hne.
  rewrite caches_match_open. exact Hhit.
Qed.

(** X2: the cache is never refreshed: once a request has a cached
    response, no run of later intercepted requests, under whatever
    networks, changes the response the cache gives for it. *)
Theorem cached_response_never_replaced
    (events : list (Network * (string * string))) (request : string * string)
    (r : Response) (s : list (string * gmap (string * string) Response))
    (Hcached : caches_match request s = Some r) :
  caches_match request (serve events s) = Some r /\
  forall net, fst (handleFetch net request (serve events s)) = Some r.
Proof.
  assert (H : caches_match request (serve events s) = Some r).
  { revert s Hcached. unfold serve.
    induction events as [|[net q] events IH]; intros s Hcached; [exact Hcached|].
    cbn [fold_left fst snd]. apply IH, handleFetch_keeps_hit, Hcached. }
  split; [exact H|]. intros net. unfold handleFetch. rewrite H. reflexivity.
Qed.

Lemma cached_response_never_replaced_witness :
  let old := mkResponse 200 "menu of last week" in
  let fresh : Network := fun _ => Some (mkResponse 200 "menu of today") in
  let s := [(CACHE_NAME, {[ GET "/customer/menu.html" := old ]})] in
  fst (handleFetch fresh (GET "/customer/menu.html")
         (serve [(fresh, GET "/customer/menu.html"); (fresh, GET "/css/main.css")] s))
  = Some old.
Proof.
  cbn zeta.
  apply (cached_response_never_replaced
           [((fun _ => Some (mkResponse 200 "menu of today")) : Network,
             GET "/customer/menu.html");
            ((fun _ => Some (mkResponse 200 "menu of today")) : Network,
             GET "/css/main.css")]
           (GET "/customer/menu.html") (mkResponse 200 "menu of last week")).
  vm_compute. reflexivity.
Defined.

(** X3: the fetch handler writes to the current generation only and
    deletes nothing: the contents of every other cache are as before,
    every cache name is still there, and the only name that can appear is
    the current generation's. *)
Theorem fetch_touches_current_generation_only
    (net : Network) (request : string * string)
    (s : list (string * gmap (string * string) Response)) :
  let s' := snd (handleFetch net request s) in
  (forall name, name <> CACHE_NAME -> cacheOf name s' = cacheOf name s) /\
  (keys s' = keys s \/ keys s' = keys s ++ [CACHE_NAME]) /\
  (NoDup (keys s) -> NoDup (keys s')).
Proof.
  cbn zeta. unfold handleFetch.
  destruct (caches_match request s); [cbn [snd]; tauto|].
  destruct (net request) as [fr|]; cbn [snd]; [|tauto].
  split; [|split].
  - intros name Hne. rewrite cacheOf_put_other by exact Hne. apply cacheOf_open.
  - rewrite keys_cache_put. unfold caches_open.
    destruct (hasCache CACHE_NAME s); [left; reflexivity|].
    right. unfold keys. rewrite map_app. reflexivity.
  - intros Hnd. rewrite keys_cache_put. apply (open_ready CACHE_NAME s Hnd).
Qed.

Lemma fetch_touches_current_generation_only_witness :
  NoDup (keys (snd (handleFetch (fun _ => Some (mkResponse 200 "ok"))
                                (GET "/js/app.js") oldAndNew))).
Proof.
  apply (fetch_touches_current_generation_only
           (fun _ => Some (mkResponse 200 "ok")) (GET "/js/app.js") oldAndNew).
  apply (bool_decide_unpack _). vm_compute. reflexivity.
Defined.

End FetchExtras.

(** ** Resource cache: install, sync and activation *)

Section InstallExtras.

Import ServiceWorker.

Lemma fetchAll_urls (net : Network) (urls : list string) (rs : list (string * Response)) :
  fetchAll net urls = Some rs -> map fst rs = urls.
Proof.
  revert rs. induction urls as [|u urls IH]; intros rs H; cbn [fetchAll] in H.
  - injection H as <-. reflexivity.
  - destruct (net (GET u)) as [r|]; [|discriminate H].
    destruct ((200 <=? status r) && (status r <? 300) && negb (status r =? 206));
      [|discriminate H].
    destruct (fetchAll net urls) as [rs'|]; [|discriminate H].
    injection H as <-. cbn [map fst]. rewrite (IH rs' eq_refl). reflexivity.
Qed.




Lemma putAll_other (rs : list (string * Response)) (req : string * string)
    (s : list (string * gmap (string * string) Response)) :
  ~ In req (map GET (map fst rs)) ->
  caches_match req
    (fold_left (fun st ur => cache_put CACHE_NAME (GET (fst ur)) (snd ur) st) rs s)
  = caches_match req s.
Proof.
  revert s. induction rs as [|x rs IH]; intros s Hnot; [reflexivity|].
  cbn [fold_left]. cbn [map In] in Hnot.
  rewrite IH by tauto. apply caches_match_put_other. tauto.
Qed.



(** X5: the install handler stores nothing but the manifest: what the
    cache answers for any other request is as before. The offline page is
    not in the manifest, so on a storage without it a request outside the
    manifest that misses gets no response at all once the network is
    down, right after an install. *)
Theorem install_leaves_offline_page_out
    (net : Network) (s : list (string * gmap (string * string) Response))
    (request : string * string)
    (Hout : ~ In request (map GET urlsToCache)) :
  let installed := snd (install net s) in
  ~ In (GET "/offline.html") (map GET urlsToCache) /\
  caches_match request installed = caches_match request s /\
  (caches_match (GET "/offline.html") s = None ->
   caches_match request s = None ->
   handleFetch (fun _ => None) request installed = (None, installed)).
Proof.
  assert (Hsame : forall req, ~ In req (map GET urlsToCache) ->
                              caches_match req (snd (install net s)) = caches_match req s).
  { intros req Hreq. unfold install.
    destruct (fetchAll net urlsToCache) as [rs|] eqn:Hall; cbn [snd].
    - apply fetchAll_urls in Hall. rewrite putAll_other by (rewrite Hall; exact Hreq).
      apply caches_match_open.
    - apply caches_match_open. }
  assert (Hoff : ~ In (GET "/offline.html") (map GET urlsToCache)).
  { unfold urlsToCache, GET. cbn [map In]. intuition discriminate. }
  cbn zeta. split; [exact Hoff|]. split; [apply Hsame, Hout|].
  intros Hno Hmiss. unfold handleFetch.
  rewrite (Hsame request Hout), Hmiss, (Hsame _ Hoff), Hno. reflexivity.
Qed.

Lemma install_leaves_offline_page_out_witness :
  let net : Network := fun req => Some (mkResponse 200 (snd req)) in
  fst (handleFetch (fun _ => None) (GET "/customer/cart.html") (snd (install net []))) = None.
Proof.
  cbn zeta.
  destruct (install_leaves_offline_page_out
              (fun req => Some (mkResponse 200 (snd req))) [] (GET "/customer/cart.html"))
    as (_ & _ & H).
  - unfold urlsToCache, GET. cbn [map In]. intuition discriminate.
  - rewrite (H eq_refl eq_refl). reflexivity.
Defined.

End InstallExtras.

Section SyncExtras.

Import ServiceWorker.

Lemma replay_keys (net : Network) (requests : list (string * string))
    (s : list (string * gmap (string * string) Response)) :
  keys (replay net requests s) = keys s.
Proof.
  revert s. induction requests as [|q requests IH]; intros s; [reflexivity|].
  cbn [replay]. destruct (net q) as [r|]; [|reflexivity].
  destruct (putAccepts q r); [|reflexivity]. rewrite IH. apply keys_cache_put.
Qed.

Lemma replay_other (net : Network) (requests : list (string * string)) (name : string)
    (s : list (string * gmap (string * string) Response)) :
  name <> "orders-cache" -> cacheOf name (replay net requests s) = cacheOf name s.
Proof.
  intros Hne. revert s. induction requests as [|q requests IH]; intros s; [reflexivity|].
  cbn [replay]. destruct (net q) as [r|]; [|reflexivity].
  destruct (putAccepts q r); [|reflexivity].
  rewrite IH. apply cacheOf_put_other, Hne.
Qed.

Lemma replay_dom (net : Network) (requests : list (string * string))
    (s : list (string * gmap (string * string) Response)) :
  hasCache "orders-cache" s = true ->
  (forall q, In q requests -> is_Some (cacheOf "orders-cache" s !! q)) ->
  dom (cacheOf "orders-cache" (replay net requests s)) = dom (cacheOf "orders-cache" s).
Proof.
  revert s. induction requests as [|q requests IH]; intros s Hhas Hin; [reflexivity|].
  cbn [replay]. destruct (net q) as [r|]; [|reflexivity].
  destruct (putAccepts q r) eqn:Hacc; [|reflexivity].
  rewrite IH.
  - rewrite cacheOf_put_same by assumption.
    apply dom_insert_lookup_L, Hin. left. reflexivity.
  - rewrite hasCache_put. exact Hhas.
  - intros q' Hq'. rewrite cacheOf_put_same by assumption.
    apply lookup_insert_is_Some'. right. apply Hin. right. exact Hq'.
Qed.

(** A request is synced when the network answers it and the cache takes
    the answer. *)
Lemma replay_all (net : Network) (requests : list (string * string))
    (s : list (string * gmap (string * string) Response)) (q : string * string) :
  hasCache "orders-cache" s = true ->
  (forall q', In q' requests -> exists r, net q' = Some r /\ putAccepts q' r = true) ->
  (In q requests -> cacheOf "orders-cache" (replay net requests s) !! q = net q) /\
  (~ In q requests ->
   cacheOf "orders-cache" (replay net requests s) !! q = cacheOf "orders-cache" s !! q).
Proof.
  revert s. induction requests as [|q0 requests IH]; intros s Hhas Hnet.
  - split; [intros []|reflexivity].
  - cbn [replay]. destruct (Hnet q0 (or_introl eq_refl)) as (r0 & Hr0 & Hacc0).
    rewrite Hr0, Hacc0.
    destruct (IH (cache_put "orders-cache" q0 r0 s)) as [IHin IHout].
    { rewrite hasCache_put. exact Hhas. }
    { intros q' Hq'. apply Hnet. right. exact Hq'. }
    rewrite cacheOf_put_same in IHout by assumption.
    split.
    + intros Hq. destruct (in_dec (decide_rel (=)) q requests) as [Hin|Hnin].
      * apply IHin, Hin.
      * rewrite (IHout Hnin). destruct Hq as [->|Hq]; [|contradiction].
        rewrite lookup_insert_eq. symmetry. exact Hr0.
    + intros Hq. cbn [In] in Hq. rewrite IHout by tauto.
      apply lookup_insert_ne. tauto.
Qed.

Lemma replay_hasCache (net : Network) (requests : list (string * string)) (name : string)
    (s : list (string * gmap (string * string) Response)) :
  hasCache name (replay net requests s) = hasCache name s.
Proof. unfold hasCache. rewrite replay_keys. reflexivity. Qed.

(** The loop ends at the first request that fails: the requests after it
    are not sent. *)
Lemma replay_stops (net : Network) (done rest : list (string * string))
    (q : string * string) (s : list (string * gmap (string * string) Response)) :
  (forall q', In q' done -> exists r, net q' = Some r /\ putAccepts q' r = true) ->
  (net q = None \/ exists r, net q = Some r /\ putAccepts q r = false) ->
  replay net (done ++ q :: rest) s = replay net done s.
Proof.
  revert s. induction done as [|q0 done IH]; intros s Hdone Hq.
  - cbn [app replay]. destruct Hq as [->|(r & -> & ->)]; reflexivity.
  - cbn [app replay]. destruct (Hdone q0 (or_introl eq_refl)) as (r0 & -> & ->).
    apply IH; [|exact Hq]. intros q' Hq'. apply Hdone. right. exact Hq'.
Qed.

(** X6: a background sync replays the requests held in orders-cache, in
    the order [cache.keys()] lists them, and stores each answer over the
    old one, but takes nothing off the queue: the requests held are the
    same before and after, so each sync sends them again; no other cache
    is touched and no cache is created but orders-cache; when every
    listed request is answered and the answer accepted by the cache, each
    entry holds the new answer; the loop ends at the first request whose
    fetch rejects or whose answer the cache rejects: the entries listed
    before it hold their new answers and every other entry, the failed
    one and the ones after it included, is as it was; a sync event with
    another tag does nothing. *)
Theorem sync_replays_and_keeps_queue
    (net : Network) (requests : list (string * string))
    (s : list (string * gmap (string * string) Response))
    (Hkeys : enumerates requests (cacheOf "orders-cache" s)) :
  let synced := cacheOf "orders-cache" (syncOrders net requests s) in
  dom synced = dom (cacheOf "orders-cache" s) /\
  (forall name, name <> "orders-cache" ->
                cacheOf name (syncOrders net requests s) = cacheOf name s) /\
  keys (syncOrders net requests s) = keys (caches_open "orders-cache" s) /\
  ((forall q, In q requests -> exists r, net q = Some r /\ putAccepts q r = true) ->
   forall q, In q requests -> synced !! q = net q) /\
  (forall done q rest,
      requests = done ++ q :: rest ->
      (forall q', In q' done -> exists r, net q' = Some r /\ putAccepts q' r = true) ->
      (net q = None \/ exists r, net q = Some r /\ putAccepts q r = false) ->
      (forall q', In q' done -> synced !! q' = net q') /\
      (forall q', ~ In q' done -> synced !! q' = cacheOf "orders-cache" s !! q')) /\
  (forall tag, tag <> "sync-orders" -> onSync tag net requests s = s).
Proof.
  destruct Hkeys as [Hnd Hreq]. cbn zeta. unfold syncOrders.
  split; [|split; [|split; [|split; [|split]]]].
  - rewrite replay_dom.
    + rewrite cacheOf_open. reflexivity.
    + apply hasCache_open.
    + intros q Hq. rewrite cacheOf_open. apply Hreq, Hq.
  - intros name Hne. rewrite replay_other by exact Hne. apply cacheOf_open.
  - apply replay_keys.
  - intros Hall q Hq.
    apply (replay_all net _ (caches_open "orders-cache" s) q);
      [apply hasCache_open|exact Hall|exact Hq].
  - intros done q rest -> Hdone Hq. rewrite replay_stops by assumption.
    split; intros q' Hq'.
    + apply (replay_all net done (caches_open "orders-cache" s) q');
        [apply hasCache_open|exact Hdone|exact Hq'].
    + rewrite <- (cacheOf_open "orders-cache" "orders-cache" s).
      apply (replay_all net done (caches_open "orders-cache" s) q');
        [apply hasCache_open|exact Hdone|exact Hq'].
  - intros tag Hne. unfold onSync.
    rewrite (proj2 (String.eqb_neq tag "sync-orders") Hne). reflexivity.
Qed.

Lemma sync_replays_and_keeps_queue_witness :
  let first := GET "/api/orders/ORD-1" in
  let second := GET "/api/orders/ORD-2" in
  let third := GET "/api/orders/ORD-3" in
  let stale := mkResponse 200 "pending" in
  let queued := [("orders-cache", <[first := stale]> (<[second := stale]> {[ third := stale ]}))] in
  let net : Network :=
    fun q => if String.eqb (snd q) "/api/orders/ORD-2" then None
             else Some (mkResponse 200 "ready") in
  let synced := cacheOf "orders-cache" (syncOrders net [first; second; third] queued) in
  synced !! first = Some (mkResponse 200 "ready") /\
  synced !! second = Some stale /\
  synced !! third = Some stale.
Proof.
  cbn zeta.
  destruct (sync_replays_and_keeps_queue
              (fun q => if String.eqb (snd q) "/api/orders/ORD-2" then None
                        else Some (mkResponse 200 "ready"))
              [GET "/api/orders/ORD-1"; GET "/api/orders/ORD-2"; GET "/api/orders/ORD-3"]
              [("orders-cache",
                <[GET "/api/orders/ORD-1" := mkResponse 200 "pending"]>
                  (<[GET "/api/orders/ORD-2" := mkResponse 200 "pending"]>
                     {[ GET "/api/orders/ORD-3" := mkResponse 200 "pending" ]}))])
    as (_ & _ & _ & _ & Hstop & _).
  - split.
    + apply NoDup_ListNoDup. apply (bool_decide_unpack _). vm_compute. reflexivity.
    + intros q. split.
      * intros [<-|[<-|[<-|[]]]]; vm_compute; eexists; reflexivity.
      * cbn [cacheOf]. change (String.eqb "orders-cache" "orders-cache") with true.
        cbn match. rewrite !lookup_insert_is_Some, lookup_singleton_is_Some.
        cbn [In]. tauto.
  - destruct (Hstop [GET "/api/orders/ORD-1"] (GET "/api/orders/ORD-2")
                    [GET "/api/orders/ORD-3"] eq_refl) as [Hdone Hrest].
    + intros q' [<-|[]]. eexists. split; reflexivity.
    + left. reflexivity.
    + split; [|split].
      * rewrite (Hdone _ (or_introl eq_refl)). reflexivity.
      * rewrite Hrest; [vm_compute; reflexivity|]. intros [E|[]]. discriminate E.
      * rewrite Hrest; [vm_compute; reflexivity|]. intros [E|[]]. discriminate E.
Defined.

(** X7: activation also deletes the queue of the background sync: on
    every storage, no cache called orders-cache is left after [activate],
    so requests queued for replay do not outlive an activation. *)
Theorem activation_drops_sync_queue
    (s : list (string * gmap (string * string) Response)) (net : Network)
    (requests : list (string * string)) :
  ~ In "orders-cache" (keys (activate s)) /\
  cacheOf "orders-cache" (activate s) = ∅ /\
  cacheOf "orders-cache" (activate (syncOrders net requests s)) = ∅.
Proof.
  assert (H : forall st, ~ In "orders-cache" (keys (activate st))).
  { intros st Hin. apply kept_names_are_current in Hin. discriminate Hin. }
  split; [apply H|]. split; apply cacheOf_absent, H.
Qed.

End SyncExtras.

(** ** Delivery bridge: clicks and messages *)

Section ClickExtras.

Import ServiceWorker.

Lemma focusFirst_first (url : string) (clientList : list WindowClient) (k : nat) :
  match focusFirst url k clientList with
  | Some effects =>
      exists i c,
        clientList !! i = Some c /\ isCustomerClient c = true /\
        (forall j c', (j < i)%nat -> clientList !! j = Some c' -> isCustomerClient c' = false) /\
        effects = [Focus (k + i); Navigate (k + i) url]
  | None => forall c, In c clientList -> isCustomerClient c = false
  end.
Proof.
  revert k. induction clientList as [|c rest IH]; intros k; cbn [focusFirst].
  - intros c [].
  - destruct (isCustomerClient c) eqn:Hc.
    + exists O, c. split; [reflexivity|]. split; [exact Hc|]. split; [intros j c' Hj; lia|].
      rewrite Nat.add_0_r. reflexivity.
    + specialize (IH (S k)). destruct (focusFirst url (S k) rest) as [effects|].
      * destruct IH as (i & c0 & Hi & Hc0 & Hbefore & ->).
        exists (S i), c0. split; [exact Hi|]. split; [exact Hc0|]. split.
        -- intros [|j] c' Hj Hl; cbn in Hl.
           ++ injection Hl as <-. exact Hc.
           ++ apply (Hbefore j c'); [lia|exact Hl].
        -- rewrite Nat.add_succ_r. reflexivity.
      * intros c' [<-|Hin]; [exact Hc|apply IH, Hin].
Qed.

Lemma click_first_none (printNumber : Q -> string) (action : string) (data : option jval)
    (clientList : list WindowClient) (canOpenWindow : bool) :
  action = "view" \/ action = "" ->
  (forall c, In c clientList -> isCustomerClient c = false) ->
  onNotificationClick printNumber action data clientList canOpenWindow
  = CloseNotification :: (if canOpenWindow then [OpenWindow (trackingURL printNumber data)] else []).
Proof.
  intros Hact Hnone. unfold onNotificationClick.
  assert (Hb : String.eqb action "view" || String.eqb action "" = true).
  { destruct Hact as [->| ->]; reflexivity. }
  rewrite Hb. pose proof (focusFirst_first (trackingURL printNumber data) clientList 0) as Hf.
  destruct (focusFirst (trackingURL printNumber data) 0 clientList) as [effects|]; [|reflexivity].
  destruct Hf as (i & c & Hi & Hc & _). apply list_elem_of_lookup_2, list_elem_of_In in Hi.
  rewrite (Hnone c Hi) in Hc. discriminate Hc.
Qed.

(** X8: the click handler always closes the notification; for an action
    other than view it does nothing else; for view, or a click on the
    body, it acts on exactly one window: the first focusable client whose
    URL contains /customer/ is focused and navigated to the tracking URL,
    and only when there is no such client is a new window opened there.
    The tracking URL is the order-tracking page, with the order appended
    when the notification carries a truthy order id. *)
Theorem click_acts_on_one_window
    (printNumber : Q -> string) (action : string) (data : option jval)
    (clientList : list WindowClient) (canOpenWindow : bool) :
  let effects := onNotificationClick printNumber action data clientList canOpenWindow in
  hd_error effects = Some CloseNotification /\
  String.prefix "/customer/order-tracking.html" (trackingURL printNumber data) = true /\
  (action <> "view" -> action <> "" -> effects = [CloseNotification]) /\
  (action = "view" \/ action = "" ->
   (exists i c,
       clientList !! i = Some c /\ isCustomerClient c = true /\
       (forall j c', (j < i)%nat -> clientList !! j = Some c' -> isCustomerClient c' = false) /\
       effects = [CloseNotification; Focus i; Navigate i (trackingURL printNumber data)])
   \/ ((forall c, In c clientList -> isCustomerClient c = false) /\
       effects = CloseNotification
                 :: (if canOpenWindow then [OpenWindow (trackingURL printNumber data)] else []))).
Proof.
  cbn zeta. unfold onNotificationClick. split; [reflexivity|]. split; [|split].
  - unfold trackingURL. destruct (truthy _); reflexivity.
  - intros Hv He.
    rewrite (proj2 (String.eqb_neq action "view") Hv), (proj2 (String.eqb_neq action "") He).
    reflexivity.
  - intros Hact.
    assert (Hb : String.eqb action "view" || String.eqb action "" = true).
    { destruct Hact as [->| ->]; reflexivity. }
    rewrite Hb. pose proof (focusFirst_first (trackingURL printNumber data) clientList 0) as Hf.
    destruct (focusFirst (trackingURL printNumber data) 0 clientList) as [effects|].
    + left. destruct Hf as (i & c & Hi & Hc & Hbefore & ->). exists i, c. tauto.
    + right. split; [exact Hf|reflexivity].
Qed.

Lemma click_acts_on_one_window_witness :
  let printNumber : Q -> string := fun _ => "" in
  onNotificationClick printNumber "" (Some (JObj [("orderId", JStr "ORD-7")]))
    [mkClient "https://sarawak-order.netlify.app/hawker/orders.html" true;
     mkClient "https://sarawak-order.netlify.app/customer/menu.html" true;
     mkClient "https://sarawak-order.netlify.app/customer/home.html" true] true
  = [CloseNotification; Focus 1; Navigate 1 "/customer/order-tracking.html?order=ORD-7"] /\
  onNotificationClick printNumber "close" None [] true = [CloseNotification].
Proof.
  cbn zeta. split.
  - vm_compute. reflexivity.
  - apply (click_acts_on_one_window (fun _ => "") "close" None [] true); discriminate.
Defined.

Lemma objectOf_orderId (v : jval) (status : option jval) :
  getProp (objectOf [("orderId", Some v); ("status", status)]) "orderId" = Some v.
Proof. destruct status; vm_compute; reflexivity. Qed.

(** X9: an ORDER_UPDATE message carrying a text order id makes the worker
    display one notification, tagged order- followed by the id, so that
    updates of one order replace each other and updates of different
    orders do not; clicking it (body or view) when no customer window is
    open opens the tracking page of that very order, or the plain
    tracking page when the id is the empty text. *)
Theorem order_update_notification_leads_to_its_order
    (printNumber : Q -> string) (m : jval) (id : string)
    (Htype : getProp m "type" = Some (JStr "ORDER_UPDATE"))
    (Hid : getProp m "orderId" = Some (JStr id)) :
  exists n,
    onMessage printNumber m = Some [ShowNotification n] /\
    n_tag n = Some (JStr ("order-" ++ id)) /\
    n_body n = getProp m "message" /\
    (forall id', ("order-" ++ id)%string = ("order-" ++ id')%string -> id = id') /\
    (forall action clientList,
        action = "view" \/ action = "" ->
        (forall c, In c clientList -> isCustomerClient c = false) ->
        onNotificationClick printNumber action (n_data n) clientList true
        = [CloseNotification;
           OpenWindow (if String.eqb id "" then "/customer/order-tracking.html"
                       else "/customer/order-tracking.html?order=" ++ id)]).
Proof.
  assert (Hm : onMessage printNumber m
               = Some [ShowNotification
                   {| n_title := Some (JStr "Order Update");
                      n_body := getProp m "message";
                      n_icon := Some (JStr "/assets/logo.png");
                      n_badge := None; n_vibrate := None;
                      n_tag := Some (JStr ("order-" ++ id));
                      n_requireInteraction := None;
                      n_data := Some (objectOf [("orderId", Some (JStr id));
                                                ("status", getProp m "status")]);
                      n_actions := [] |}]).
  { unfold onMessage. rewrite Htype, Hid.
    destruct m; [discriminate Htype|reflexivity..]. }
  eexists. split; [exact Hm|]. cbn [n_tag n_body n_data].
  split; [reflexivity|]. split; [reflexivity|]. split.
  - intros id' E. injection E as E. exact E.
  - intros action clientList Hact Hnone.
    rewrite click_first_none by assumption. unfold trackingURL. rewrite objectOf_orderId. cbn [truthy template toStr].
    destruct (String.eqb id ""); reflexivity.
Qed.

End ClickExtras.

Section ClickScenarios.

Import ServiceWorker.

Lemma order_update_notification_leads_to_its_order_witness :
  let printNumber : Q -> string := fun _ => "" in
  let m := JObj [("type", JStr "ORDER_UPDATE"); ("orderId", JStr "ORD-7");
                 ("status", JStr "ready"); ("message", JStr "Your order is ready")] in
  exists n,
    onMessage printNumber m = Some [ShowNotification n] /\
    n_tag n = Some (JStr "order-ORD-7") /\
    onNotificationClick printNumber "view" (n_data n) [] true
    = [CloseNotification; OpenWindow "/customer/order-tracking.html?order=ORD-7"].
Proof.
  cbn zeta.
  destruct (order_update_notification_leads_to_its_order (fun _ => "")
              (JObj [("type", JStr "ORDER_UPDATE"); ("orderId", JStr "ORD-7");
                     ("status", JStr "ready"); ("message", JStr "Your order is ready")])
              "ORD-7" eq_refl eq_refl)
    as (n & Hn & Htag & _ & _ & Hclick).
  exists n. split; [exact Hn|]. split; [exact Htag|].
  apply (Hclick "view" []); [left; reflexivity|intros c []].
Defined.



End ClickScenarios.

(** ** Notification cards: removal and what stays on screen *)

Section CardExtras.

Import Notify.

(** X11: in every state a manager can reach, the deferred part of
    [dismiss] removes exactly the card it was asked to remove, from the
    container and from the queue, leaving the other cards in order; a
    card dismissed twice (close button, timer, eviction) is removed once
    and the second removal changes nothing. *)
Theorem removal_takes_one_card (es : list Event) (c : nat) :
  let m := steps es new in
  let m' := removeNow c m in
  map card_id (children m')
  = List.filter (fun i => negb (Nat.eqb i c)) (map card_id (children m)) /\
  map card_id (notificationQueue m')
  = List.filter (fun i => negb (Nat.eqb i c)) (map card_id (notificationQueue m)) /\
  removeNow c m' = m'.
Proof.
  cbn zeta.
  destruct (steps_coherent es new (proj1 new_coherent) (proj2 new_coherent))
    as [(Hs & _) (Hq & _)].
  pose proof (remove_first_ids c _ Hs) as Hc.
  pose proof (remove_first_ids c _ Hq) as Hqi.
  split; [exact Hc|]. split; [exact Hqi|].
  unfold removeNow. cbn [children notificationQueue showClass hideClass timers nextId].
  rewrite (remove_first_absent c (remove_first c (children (steps es new)))).
  - rewrite (remove_first_absent c (remove_first c (notificationQueue (steps es new))));
      [reflexivity|].
    rewrite Hqi. intros Hin. apply filter_In in Hin as [_ Hne].
    rewrite Nat.eqb_refl in Hne. discriminate Hne.
  - rewrite Hc. intros Hin. apply filter_In in Hin as [_ Hne].
    rewrite Nat.eqb_refl in Hne. discriminate Hne.
Qed.

(** X12: in every state a manager can reach, every queued card is in the
    container, every card in the container that is not fading out (no
    hide class) is queued, and so at most three cards that are not fading
    out are on screen. *)
Theorem at_most_three_cards_not_fading (es : list Event) :
  let m := steps es new in
  (forall c, In c (notificationQueue m) -> In c (children m)) /\
  (forall c, In c (visible m) -> In c (notificationQueue m)) /\
  (length (visible m) <= 3)%nat.
Proof.
  cbn zeta.
  destruct (steps_coherent es new (proj1 new_coherent) (proj2 new_coherent))
    as [(Hs & _ & Hqc & Hcq) _].
  assert (Hvis : forall c, In c (visible (steps es new)) ->
                           In c (notificationQueue (steps es new))).
  { intros c Hc. unfold visible in Hc. apply filter_In in Hc as [Hc Hh].
    destruct (Hcq c Hc) as [Hq|Hhid]; [exact Hq|].
    apply negb_true_iff in Hh.
    assert (existsb (Nat.eqb (card_id c)) (hideClass (steps es new)) = true).
    { apply existsb_exists. exists (card_id c). split; [exact Hhid|apply Nat.eqb_refl]. }
    congruence. }
  split; [exact Hqc|]. split; [exact Hvis|].
  transitivity (length (notificationQueue (steps es new))).
  - apply List.NoDup_incl_length; [|exact Hvis].
    unfold visible. apply List.NoDup_filter.
    apply (List.NoDup_map_inv card_id). apply sorted_NoDup, Hs.
  - apply (steps_bound es new). cbn. unfold maxNotifications. lia.
Qed.

End CardExtras.

(** ** Progress tracker: what is rendered and announced *)

Section RenderExtras.

Import Progress.

(** X13: with the current status at position [i] of the step list,
    [getStepClass] marks the steps before it completed, the step itself
    active and the later ones not at all, so exactly one step is active;
    with a status outside the list (cancelled included) no step is
    marked. *)
Theorem one_active_step (t : Tracker) :
  (In (currentStep t) steps ->
   exists i : nat,
     JsArray.indexOf steps (currentStep t) = Z.of_nat i /\
     map (getStepClass t) steps
     = replicate i "completed" ++ ["active"] ++ replicate (3 - i) "") /\
  (~ In (currentStep t) steps ->
   map (getStepClass t) steps = [""; ""; ""; ""]).
Proof.
  split.
  - intros Hin. unfold steps in Hin. cbn [In] in Hin. unfold getStepClass.
    destruct Hin as [E|[E|[E|[E|[]]]]]; rewrite <- E;
      [exists 0%nat|exists 1%nat|exists 2%nat|exists 3%nat]; split; reflexivity.
  - intros Hout. unfold getStepClass. rewrite (indexOf_off_scale _ Hout). reflexivity.
Qed.

Lemma one_active_step_witness :
  map (getStepClass (mkTracker None "preparing")) steps
  = ["completed"; "active"; ""; ""]
  /\ map (getStepClass (mkTracker None "cancelled")) steps = [""; ""; ""; ""].
Proof.
  destruct (one_active_step (mkTracker None "preparing")) as [Hon _].
  destruct (one_active_step (mkTracker None "cancelled")) as [_ Hoff].
  split.
  - destruct Hon as (i & Hi & Hc).
    + unfold steps. cbn [currentStep In]. tauto.
    + rewrite Hc. cbn [currentStep] in Hi.
      change (JsArray.indexOf steps "preparing") with 1 in Hi.
      assert (i = 1%nat) as -> by lia. reflexivity.
  - apply Hoff. unfold steps. cbn [currentStep In]. intuition discriminate.
Defined.

Lemma viewOf_render (t : Tracker) : viewOf (render t) = viewOf t.
Proof. unfold render. destruct (container t); reflexivity. Qed.

Lemma update_effect (s : string) (w : World) (writes : list View) (m : Notify.Manager) :
  container (tracker w) = Some writes -> manager w = Some m ->
  exists writes' m',
    container (tracker (updateStatus s w)) = Some writes' /\
    manager (updateStatus s w) = Some m' /\
    writes' = (if String.eqb (currentStep (tracker w)) s then writes
               else writes ++ [viewOf (tracker (updateStatus s w))]) /\
    Notify.nextId m'
    = (Notify.nextId m
       + (if String.eqb (currentStep (tracker w)) s then 0
          else match messages s with Some _ => 1 | None => 0 end))%nat.
Proof.
  intros Hc Hm. unfold updateStatus.
  destruct (String.eqb (currentStep (tracker w)) s).
  - exists writes, m. rewrite Nat.add_0_r. tauto.
  - rewrite Hm. unfold render. cbn [container currentStep]. rewrite Hc.
    destruct (messages s) as [msg|]; cbn [tracker manager container].
    + eexists. eexists. split; [reflexivity|]. split; [reflexivity|]. split; [reflexivity|].
      unfold Notify.show, Notify.manageQueue. cbn [snd].
      destruct (Nat.ltb _ _); [destruct (Notify.notificationQueue _ ++ _)|];
        cbn; lia.
    + exists (writes ++ [viewOf {| container := Some writes; currentStep := s |}]), m.
      rewrite Nat.add_0_r. repeat split.
Qed.

Lemma feed_effect (statuses : list string) (w : World)
    (writes : list View) (m : Notify.Manager) :
  container (tracker w) = Some writes -> manager w = Some m ->
  (forall v, last writes = Some v -> v = viewOf (tracker w)) ->
  let w' := feed statuses w in
  length (renders w') = (length writes + changes (currentStep (tracker w)) statuses)%nat /\
  created w' = (Notify.nextId m + announced (currentStep (tracker w)) statuses)%nat /\
  (forall v, last (renders w') = Some v -> v = viewOf (tracker w')).
Proof.
  revert w writes m. induction statuses as [|s rest IH]; intros w writes m Hc Hm Hlast.
  - cbn zeta. unfold feed, renders, created. cbn [fold_left changes announced].
    rewrite Hc, Hm, !Nat.add_0_r. cbn [default]. tauto.
  - destruct (update_effect s w writes m Hc Hm) as (writes' & m' & Hc' & Hm' & Hw & Hn).
    cbn zeta. unfold feed. cbn [fold_left]. fold (feed rest (updateStatus s w)).
    destruct (IH (updateStatus s w) writes' m' Hc' Hm') as (Hlen & Hcr & Hl).
    + rewrite Hw. destruct (String.eqb_spec (currentStep (tracker w)) s) as [E|Hne].
      * intros v Hv.
        assert (Hsame : updateStatus s w = w).
        { unfold updateStatus. rewrite (proj2 (String.eqb_eq _ _) E). reflexivity. }
        rewrite Hsame. apply Hlast, Hv.
      * intros v Hv. rewrite last_snoc in Hv. injection Hv as <-. reflexivity.
    + rewrite updateStatus_currentStep in Hlen, Hcr. cbn [changes announced].
      split; [|split; [|exact Hl]].
      * rewrite Hlen, Hw. destruct (String.eqb (currentStep (tracker w)) s);
          [|rewrite length_app]; cbn [length]; lia.
      * rewrite Hcr, Hn. lia.
Qed.

Lemma announced_le_changes (current : string) (statuses : list string) :
  (announced current statuses <= changes current statuses)%nat.
Proof.
  revert current. induction statuses as [|s rest IH]; intros current; [cbn; lia|].
  cbn [changes announced]. specialize (IH s).
  destruct (String.eqb current s); [|destruct (messages s)]; lia.
Qed.

(** X14: starting from a page as the script leaves it, the container
    receives one rendering for every update that changes the status and
    none for a repeated status, a card is created for exactly those
    changes whose status has an entry in the message table, and whenever
    something has been rendered the last rendering shows the current
    status. *)
Theorem one_render_per_change (statuses : list string) :
  let w := feed statuses (fresh true) in
  length (renders w) = changes "pending" statuses /\
  created w = announced "pending" statuses /\
  (announced "pending" statuses <= changes "pending" statuses)%nat /\
  (forall v, last (renders w) = Some v -> v = viewOf (tracker w)).
Proof.
  cbn zeta.
  destruct (feed_effect statuses (fresh true) [] Notify.new eq_refl eq_refl)
    as (Hlen & Hcr & Hl).
  { intros v Hv. discriminate Hv. }
  split; [exact Hlen|]. split; [exact Hcr|]. split; [|exact Hl].
  apply announced_le_changes.
Qed.

End RenderExtras.

(** ** QR codes: the addresses built *)

Section AddressExtras.

Import QRCode.

Lemma append_same_prefix (p a b : string) :
  (p ++ a)%string = (p ++ b)%string -> a = b.
Proof.
  induction p as [|c p IH]; cbn [append]; intros H; [exact H|].
  injection H as H. apply IH, H.
Qed.

Lemma append_assoc_string (a b c : string) :
  ((a ++ b) ++ c)%string = (a ++ (b ++ c))%string.
Proof.
  induction a as [|x a IH]; [reflexivity|].
  change ((String x a ++ b) ++ c)%string with (String x ((a ++ b) ++ c)%string).
  rewrite IH. reflexivity.
Qed.

Lemma lastIndexOf_from_absent (c : ascii) (s : string) (i found : Z) :
  ~ In c (list_ascii_of_string s) -> lastIndexOf_from c s i found = found.
Proof.
  revert i. induction s as [|x s IH]; intros i Hnot; [reflexivity|].
  cbn [list_ascii_of_string In] in Hnot. cbn [lastIndexOf_from].
  destruct (Ascii.eqb_spec x c) as [E|_]; [tauto|]. apply IH. tauto.
Qed.

Lemma lastIndexOf_from_app (c : ascii) (a b : string) (i found : Z) :
  lastIndexOf_from c (a ++ b) i found
  = lastIndexOf_from c b (i + Z.of_nat (String.length a)) (lastIndexOf_from c a i found).
Proof.
  revert i found. induction a as [|x a IH]; intros i found.
  - cbn [String.length lastIndexOf_from]. rewrite Z.add_0_r. reflexivity.
  - change (String x a ++ b)%string with (String x (a ++ b)%string).
    cbn [lastIndexOf_from String.length]. rewrite IH. f_equal. lia.
Qed.

Lemma lastIndexOf_split (c : ascii) (dir file : string) :
  ~ In c (list_ascii_of_string file) ->
  lastIndexOf c (dir ++ String c file) = Z.of_nat (String.length dir).
Proof.
  intros Hfile. unfold lastIndexOf. rewrite lastIndexOf_from_app.
  cbn [lastIndexOf_from]. rewrite Ascii.eqb_refl.
  rewrite lastIndexOf_from_absent by exact Hfile. lia.
Qed.

Lemma substring_prefix (a b : string) :
  String.substring 0 (String.length a) (a ++ b) = a.
Proof.
  induction a as [|x a IH].
  - destruct b; reflexivity.
  - change (String x a ++ b)%string with (String x (a ++ b)%string).
    cbn [String.length String.substring]. rewrite IH. reflexivity.
Qed.

(** X15: on a development host that is not the deployed origin, the base
    URL is the configured production URL and the menu URL is the
    production home page with the two parameters, whatever page builds
    it; elsewhere the base URL is the page's own origin and the menu URL
    is built relative to the directory of the page in view. *)
Theorem menu_url_by_host (l : Location) (foodCourtId tableNumber : string) :
  (isDevelopment l = true -> origin l <> PRODUCTION_URL ->
   getBaseURL l = PRODUCTION_URL /\
   generateMenuURL l foodCourtId tableNumber
   = ("https://sarawak-order.netlify.app/customer/home.html?foodcourt="
      ++ foodCourtId ++ "&table=" ++ tableNumber)%string) /\
  (isDevelopment l = false ->
   getBaseURL l = origin l /\
   forall dir file,
     pathname l = (dir ++ String "/" file)%string ->
     ~ In "/"%char (list_ascii_of_string file) ->
     generateMenuURL l foodCourtId tableNumber
     = (origin l ++ dir ++ "/../customer/home.html?foodcourt="
        ++ foodCourtId ++ "&table=" ++ tableNumber)%string).
Proof.
  split.
  - intros Hdev Hne.
    assert (Hb : getBaseURL l = PRODUCTION_URL).
    { unfold getBaseURL. cbn [USE_AUTO_DETECT]. rewrite Hdev. reflexivity. }
    split; [exact Hb|]. unfold generateMenuURL. rewrite Hb.
    rewrite (proj2 (String.eqb_neq PRODUCTION_URL (origin l))) by congruence.
    reflexivity.
  - intros Hprod.
    assert (Hb : getBaseURL l = origin l).
    { unfold getBaseURL. cbn [USE_AUTO_DETECT]. rewrite Hprod. reflexivity. }
    split; [exact Hb|]. intros dir file Hpath Hfile.
    unfold generateMenuURL. rewrite Hb, String.eqb_refl, Hpath.
    rewrite (lastIndexOf_split "/" dir file Hfile). unfold substringTo.
    rewrite Nat2Z.id, substring_prefix.
    rewrite append_assoc_string. reflexivity.
Qed.

Lemma menu_url_by_host_witness :
  generateMenuURL adminPage "fc-1" "12"
  = "https://sarawak-order.netlify.app/customer/home.html?foodcourt=fc-1&table=12" /\
  generateMenuURL
    (mkLocation "sarawak-order.netlify.app" "" "https://sarawak-order.netlify.app"
                "/admin/qr-codes.html") "fc-1" "12"
  = "https://sarawak-order.netlify.app/admin/../customer/home.html?foodcourt=fc-1&table=12".
Proof.
  split.
  - apply (menu_url_by_host adminPage "fc-1" "12"); [reflexivity|discriminate].
  - destruct (menu_url_by_host
                (mkLocation "sarawak-order.netlify.app" "" "https://sarawak-order.netlify.app"
                            "/admin/qr-codes.html") "fc-1" "12") as [_ Hprod].
    destruct (Hprod eq_refl) as [_ Hurl].
    apply (Hurl "/admin" "qr-codes.html"); [reflexivity|].
    cbn [list_ascii_of_string In]. intuition discriminate.
Defined.

Lemma hexDigits_unreserved (c : ascii) :
  isUnreserved (hexDigit (N_of_ascii c / 16)) = true /\
  isUnreserved (hexDigit (N_of_ascii c mod 16)) = true.
Proof. destruct c as [[] [] [] [] [] [] [] []]; vm_compute; split; reflexivity. Qed.

Lemma decode_unreserved (c : ascii) (rest : string) :
  isUnreserved c = true ->
  decodeEscapes (String c rest) = String c (decodeEscapes rest).
Proof.
  destruct c as [[] [] [] [] [] [] [] []]; intros H; try reflexivity;
    vm_compute in H; discriminate H.
Qed.

Lemma decode_escape (c : ascii) (rest : string) :
  decodeEscapes (percentEncode c ++ rest) = String c (decodeEscapes rest).
Proof. destruct c as [[] [] [] [] [] [] [] []]; reflexivity. Qed.

Lemma decode_encode (s : string) : decodeEscapes (encodeURIComponent s) = s.
Proof.
  induction s as [|c s IH]; [reflexivity|]. cbn [encodeURIComponent].
  destruct (isUnreserved c) eqn:Hc.
  - rewrite (decode_unreserved c _ Hc), IH. reflexivity.
  - rewrite decode_escape, IH. reflexivity.
Qed.

Lemma encoded_chars (s : string) (c : ascii) :
  In c (list_ascii_of_string (encodeURIComponent s)) ->
  isUnreserved c = true \/ c = "%"%char.
Proof.
  induction s as [|x s IH]; [intros []|]. cbn [encodeURIComponent].
  destruct (isUnreserved x) eqn:Hx.
  - cbn [list_ascii_of_string In]. intros [<-|Hin]; [left; exact Hx|apply IH, Hin].
  - unfold percentEncode. cbn [append list_ascii_of_string In].
    destruct (hexDigits_unreserved x) as [Hh Hl].
    intros [<-|[<-|[<-|Hin]]]; [right; reflexivity|left; exact Hh|left; exact Hl|apply IH, Hin].
Qed.

(** X16: the address of the QR image ends with the encoded menu URL as
    its data parameter; the encoded text consists of unreserved
    characters and percent signs only, so it holds no ampersand, equals
    sign, hash, question mark, slash, plus or space that could cut the
    parameter short; and the encoding loses nothing: two different menu
    URLs never give the same image address. *)
Theorem qr_address_carries_the_menu_url (dataUrl : string) (size : option Z) :
  generateQRCodeURL dataUrl size
  = ("https://api.qrserver.com/v1/create-qr-code/?size=" ++ pretty (default 300 size)
     ++ "x" ++ pretty (default 300 size) ++ "&data=" ++ encodeURIComponent dataUrl)%string /\
  (forall c, In c (list_ascii_of_string (encodeURIComponent dataUrl)) ->
             (isUnreserved c = true \/ c = "%"%char) /\
             ~ In c ["&"; "="; "#"; "?"; "/"; "+"; " "]%char) /\
  decodeEscapes (encodeURIComponent dataUrl) = dataUrl /\
  (forall other, generateQRCodeURL dataUrl size = generateQRCodeURL other size ->
                 dataUrl = other).
Proof.
  split; [reflexivity|]. split; [|split; [apply decode_encode|]].
  - intros c Hc. apply encoded_chars in Hc. split; [exact Hc|].
    intros Hbad. cbn [In] in Hbad.
    destruct Hc as [Hc| ->].
    + destruct Hbad as [<-|[<-|[<-|[<-|[<-|[<-|[<-|[]]]]]]]]; vm_compute in Hc; discriminate Hc.
    + intuition discriminate.
  - intros other H. unfold generateQRCodeURL in H.
    repeat apply append_same_prefix in H.
    rewrite <- (decode_encode dataUrl), <- (decode_encode other), H. reflexivity.
Qed.

End AddressExtras.

(** ** QR codes: the download name and the batch *)

Section NameAndBatchExtras.

Import QRCode.

Lemma replaceRuns_clean (inRun : bool) (text : list N) :
  Forall (fun u => isWhiteSpace u = false) (replaceRuns inRun text).
Proof.
  revert inRun. induction text as [|u rest IH]; intros inRun; cbn [replaceRuns].
  - apply List.Forall_nil.
  - destruct (isWhiteSpace u) eqn:Hu.
    + destruct inRun; [apply IH|]. apply List.Forall_cons; [reflexivity|apply IH].
    + apply List.Forall_cons; [exact Hu|apply IH].
Qed.

Lemma replaceRuns_unchanged (inRun : bool) (text : list N) :
  Forall (fun u => isWhiteSpace u = false) text -> replaceRuns inRun text = text.
Proof.
  revert inRun. induction text as [|u rest IH]; intros inRun Hclean; [reflexivity|].
  cbn [replaceRuns]. rewrite (List.Forall_inv Hclean).
  rewrite IH by exact (List.Forall_inv_tail Hclean). reflexivity.
Qed.

Lemma replaceRuns_length (inRun : bool) (text : list N) :
  (length (replaceRuns inRun text) <= length text)%nat.
Proof.
  revert inRun. induction text as [|u rest IH]; intros inRun; cbn [replaceRuns length]; [lia|].
  destruct (isWhiteSpace u); [destruct inRun|]; cbn [length].
  - specialize (IH true). lia.
  - specialize (IH true). lia.
  - specialize (IH false). lia.
Qed.

Lemma replaceRuns_word (word text : list N) :
  Forall (fun u => isWhiteSpace u = false) word ->
  replaceRuns false (word ++ text) = word ++ replaceRuns false text.
Proof.
  induction word as [|u word IH]; intros Hclean; [reflexivity|].
  cbn [app replaceRuns]. rewrite (List.Forall_inv Hclean).
  rewrite IH by exact (List.Forall_inv_tail Hclean). reflexivity.
Qed.

Lemma replaceRuns_run (run rest : list N) :
  Forall (fun u => isWhiteSpace u = true) run ->
  match rest with [] => True | u :: _ => isWhiteSpace u = false end ->
  replaceRuns true (run ++ rest) = replaceRuns false rest.
Proof.
  intros Hrun Hrest. induction run as [|u run IH].
  - destruct rest as [|v rest]; [reflexivity|]. cbn [app replaceRuns]. rewrite Hrest.
    reflexivity.
  - cbn [app replaceRuns]. rewrite (List.Forall_inv Hrun).
    apply IH, (List.Forall_inv_tail Hrun).
Qed.

(** X17: the name of the downloaded file holds no white space: every run
    of white space in the food court's name has become one underscore: a
    stretch free of white space is kept, and a run of white space after
    it, however long and up to the next unit that is not white space or
    the end of the name, gives exactly one underscore, after which the
    rest is treated the same way (so the name is never longer than
    before, a name without white space is kept as it is, and cleaning
    twice changes nothing more); with a table number free of white space
    the whole file name is free of it. *)
Theorem download_name_has_no_white_space (foodCourtName tableNumber : list N) :
  Forall (fun u => isWhiteSpace u = false) (sanitize foodCourtName) /\
  sanitize (sanitize foodCourtName) = sanitize foodCourtName /\
  (length (sanitize foodCourtName) <= length foodCourtName)%nat /\
  (Forall (fun u => isWhiteSpace u = false) foodCourtName ->
   sanitize foodCourtName = foodCourtName) /\
  (Forall (fun u => isWhiteSpace u = false) tableNumber ->
   Forall (fun u => isWhiteSpace u = false) (downloadName foodCourtName tableNumber)) /\
  (forall word run rest : list N,
      foodCourtName = word ++ run ++ rest ->
      Forall (fun u => isWhiteSpace u = false) word ->
      run <> [] ->
      Forall (fun u => isWhiteSpace u = true) run ->
      match rest with [] => True | u :: _ => isWhiteSpace u = false end ->
      sanitize foodCourtName = word ++ [95%N] ++ sanitize rest /\
      downloadName foodCourtName tableNumber
      = units "QR_" ++ word ++ [95%N] ++ sanitize rest
        ++ units "_Table_" ++ tableNumber ++ units ".png").
Proof.
  assert (Hrun : forall word run rest : list N,
             foodCourtName = word ++ run ++ rest ->
             Forall (fun u => isWhiteSpace u = false) word ->
             run <> [] ->
             Forall (fun u => isWhiteSpace u = true) run ->
             match rest with [] => True | u :: _ => isWhiteSpace u = false end ->
             sanitize foodCourtName = word ++ [95%N] ++ sanitize rest).
  { intros word run rest -> Hword Hne Hws Hrest. unfold sanitize.
    rewrite replaceRuns_word by exact Hword. f_equal.
    destruct run as [|u run]; [contradiction|].
    cbn [app replaceRuns]. rewrite (List.Forall_inv Hws). f_equal.
    apply replaceRuns_run; [exact (List.Forall_inv_tail Hws)|exact Hrest]. }
  split; [apply replaceRuns_clean|]. split; [|split; [|split; [|split]]].
  - apply replaceRuns_unchanged, replaceRuns_clean.
  - apply replaceRuns_length.
  - apply replaceRuns_unchanged.
  - intros Htable. unfold downloadName, sanitize.
    repeat (apply List.Forall_app; split); try exact Htable; try apply replaceRuns_clean.
    all: vm_compute; repeat (apply List.Forall_cons; [reflexivity|]); apply List.Forall_nil.
  - intros word run rest Hname Hword Hne Hws Hrest.
    pose proof (Hrun word run rest Hname Hword Hne Hws Hrest) as E.
    split; [exact E|]. unfold downloadName. rewrite E.
    rewrite <- !app_assoc. reflexivity.
Qed.

Lemma download_name_has_no_white_space_witness :
  sanitize (units "Kuching  Food Court") = units "Kuching_Food_Court" /\
  Forall (fun u => isWhiteSpace u = false)
         (downloadName (units "Kuching  Food Court") (units "7")) /\
  sanitize (units "Kuching  Food Court")
  = units "Kuching" ++ [95%N] ++ sanitize (units "Food Court") /\
  downloadName (units "Kuching  Food Court") (units "7")
  = units "QR_Kuching_Food_Court_Table_7.png".
Proof.
  destruct (download_name_has_no_white_space (units "Kuching  Food Court") (units "7"))
    as (_ & _ & _ & _ & Hclean & Hrun).
  destruct (Hrun (units "Kuching") (units "  ") (units "Food Court")) as [Hname Hfile].
  - reflexivity.
  - vm_compute. repeat (apply List.Forall_cons; [reflexivity|]). apply List.Forall_nil.
  - discriminate.
  - vm_compute. repeat (apply List.Forall_cons; [reflexivity|]). apply List.Forall_nil.
  - reflexivity.
  - split; [reflexivity|]. split; [|split; [exact Hname|]].
    + apply Hclean.
      vm_compute. repeat (apply List.Forall_cons; [reflexivity|]). apply List.Forall_nil.
    + rewrite Hfile. reflexivity.
Defined.

Lemma batchLoop_counts {S R : Type} (backend : Backend S R) (location : Location)
    (foodCourtId : string) (remaining : nat) (tableNumber : Z)
    (acc : list (option R * bool)) (n e : nat) (st st' : S) (sum : Summary) :
  batchLoop backend location foodCourtId remaining tableNumber acc n e st = (inr sum, st') ->
  n = length (List.filter snd acc) ->
  (n + e = length acc)%nat ->
  success sum = true /\
  total sum = (length acc + remaining)%nat /\
  length (qrCodes sum) = total sum /\
  (newCount sum + existingCount sum = total sum)%nat /\
  newCount sum = length (List.filter snd (qrCodes sum)) /\
  firstn (length acc) (qrCodes sum) = acc.
Proof.
  revert tableNumber acc n e st.
  induction remaining as [|remaining IH]; intros tableNumber acc n e st Hrun Hn Hne;
    cbn [batchLoop] in Hrun.
  - injection Hrun as <- _. cbn [success total qrCodes newCount existingCount].
    rewrite Nat.add_0_r, firstn_all. tauto.
  - destruct (getOrCreateQRCode backend location foodCourtId tableNumber st)
      as [[code|result] st1]; [discriminate Hrun|].
    destruct (snd result) eqn:Hnew; apply IH in Hrun.
    + destruct Hrun as (H1 & H2 & H3 & H4 & H5 & H6).
      rewrite length_app in H2, H6. cbn [length] in H2, H6.
      repeat split; try assumption; try lia.
      apply (f_equal (firstn (length acc))) in H6.
      rewrite firstn_firstn, Nat.min_l in H6 by lia.
      rewrite H6, firstn_app, Nat.sub_diag, firstn_all, app_nil_r. reflexivity.
    + rewrite List.filter_app, length_app. cbn [List.filter]. rewrite Hnew. cbn [length]. lia.
    + rewrite length_app. cbn [length]. lia.
    + destruct Hrun as (H1 & H2 & H3 & H4 & H5 & H6).
      rewrite length_app in H2, H6. cbn [length] in H2, H6.
      repeat split; try assumption; try lia.
      apply (f_equal (firstn (length acc))) in H6.
      rewrite firstn_firstn, Nat.min_l in H6 by lia.
      rewrite H6, firstn_app, Nat.sub_diag, firstn_all, app_nil_r. reflexivity.
    + rewrite List.filter_app, length_app. cbn [List.filter]. rewrite Hnew. cbn [length]. lia.
    + rewrite length_app. cbn [length]. lia.
Qed.

(** X18: whatever the backend, when [batchGenerateQRCodes] answers at all
    its summary is consistent: success is true, total is the number of
    tables from the first to the last (none when the range is empty),
    one result is listed per table, newCount is the number of results
    flagged new, and newCount and existingCount add up to total. On an
    empty range it answers the empty summary without calling the
    backend. *)
Theorem batch_summary_adds_up {S R : Type} (backend : Backend S R) (location : Location)
    (foodCourtId : string) (startTable endTable : Z) (st : S) :
  (forall sum st',
      batchGenerateQRCodes backend location foodCourtId startTable endTable st
      = (inr sum, st') ->
      success sum = true /\
      total sum = Z.to_nat (endTable - startTable + 1) /\
      length (qrCodes sum) = total sum /\
      newCount sum = length (List.filter snd (qrCodes sum)) /\
      (newCount sum + existingCount sum = total sum)%nat) /\
  (endTable < startTable ->
   batchGenerateQRCodes backend location foodCourtId startTable endTable st
   = (inr (mkSummary true 0 0 0 []), st)).
Proof.
  split.
  - intros sum st' Hrun. unfold batchGenerateQRCodes in Hrun.
    apply batchLoop_counts in Hrun; [|reflexivity..].
    cbn [length Nat.add] in Hrun. tauto.
  - intros Hempty. unfold batchGenerateQRCodes.
    replace (Z.to_nat (endTable - startTable + 1)) with O by lia. reflexivity.
Qed.

Lemma batch_summary_adds_up_witness :
  let stored := [mkNewRow "fc" 4 "x" "y"] in
  exists sum st',
    batchGenerateQRCodes memoryBackend adminPage "fc" 3 5 stored = (inr sum, st') /\
    total sum = 3%nat /\ newCount sum = 2%nat /\ existingCount sum = 1%nat /\
    batchGenerateQRCodes memoryBackend adminPage "fc" 5 3 stored
    = (inr (mkSummary true 0 0 0 []), stored).
Proof.
  cbn zeta.
  destruct (batchGenerateQRCodes memoryBackend adminPage "fc" 3 5 [mkNewRow "fc" 4 "x" "y"])
    as [[code|sum] st'] eqn:Hrun; [vm_compute in Hrun; discriminate Hrun|].
  exists sum, st'. split; [reflexivity|].
  destruct (batch_summary_adds_up memoryBackend adminPage "fc" 3 5 [mkNewRow "fc" 4 "x" "y"])
    as [Hsum _].
  destruct (Hsum sum st' Hrun) as (_ & Htotal & _ & _ & _).
  destruct (batch_summary_adds_up memoryBackend adminPage "fc" 5 3 [mkNewRow "fc" 4 "x" "y"])
    as [_ Hempty].
  split; [exact Htotal|].
  vm_compute in Hrun. injection Hrun as <- _.
  split; [reflexivity|]. split; [reflexivity|]. apply Hempty. lia.
Defined.

End NameAndBatchExtras.

(** ** Change subscription: whose updates arrive *)

Section DeliveryExtras.

Import Subscription.






End DeliveryExtras.

(** ** Delivery bridge: what a push payload can set *)

Section PayloadExtras.

Import ServiceWorker.

Lemma spread_over (members : list (string * jval)) (base acc acc' : gmap string jval)
    (key : string) :
  acc' !! key = match acc !! key with Some v => Some v | None => base !! key end ->
  fold_left (fun o kv => <[fst kv := snd kv]> o) members acc' !! key
  = match fold_left (fun o kv => <[fst kv := snd kv]> o) members acc !! key with
    | Some v => Some v
    | None => base !! key
    end.
Proof.
  revert acc acc'. induction members as [|[k v] members IH]; intros acc acc' H; [exact H|].
  cbn [fold_left fst snd]. apply IH.
  destruct (decide (k = key)) as [->|Hne].
  - rewrite !lookup_insert_eq. reflexivity.
  - rewrite !lookup_insert_ne by exact Hne. exact H.
Qed.

(** X20: for a push payload that parses to an object, each field the
    notification is built from is the payload's value when the payload
    has that key and the default otherwise, [data] being undefined
    without the key; for a payload that parses to null, a truth value or
    a number every field is the default. The two actions are fixed: no
    payload changes them. *)
Theorem push_payload_overrides_defaults (d : PushMessageData) :
  n_actions (onPush (Some d))
  = [mkAction "view" "View Order" "/assets/icons/view.png";
     mkAction "close" "Dismiss" "/assets/icons/close.png"] /\
  (forall members,
      json d = Some (JObj members) ->
      let field key :=
        match getProp (JObj members) key with
        | Some v => Some v
        | None => defaultNotification !! key
        end in
      onPush (Some d)
      = {| n_title := field "title"; n_body := field "body"; n_icon := field "icon";
           n_badge := field "badge"; n_vibrate := field "vibrate"; n_tag := field "tag";
           n_requireInteraction := field "requireInteraction"; n_data := field "data";
           n_actions := n_actions (onPush (Some d)) |}) /\
  (forall v, json d = Some v ->
             match v with JNull | JBool _ | JNum _ => True | _ => False end ->
             onPush (Some d) = onPush None).
Proof.
  split; [reflexivity|]. split.
  - intros members Hjson. cbn zeta. unfold onPush, resolvePayload. rewrite Hjson.
    unfold getProp, spread. cbn [ownEntries].
    assert (H : forall key,
               fold_left (fun o kv => <[fst kv := snd kv]> o) members defaultNotification !! key
               = match fold_left (fun o kv => <[fst kv := snd kv]> o) members
                              (∅ : gmap string jval) !! key with
                 | Some v => Some v
                 | None => defaultNotification !! key
                 end).
    { intros key. apply spread_over. rewrite lookup_empty. reflexivity. }
    rewrite !H. reflexivity.
  - intros v Hjson Hv. unfold onPush, resolvePayload. rewrite Hjson.
    destruct v; try contradiction; reflexivity.
Qed.

Lemma push_payload_overrides_defaults_witness :
  let shown :=
    onPush (Some (mkPush "{...}"
                    (Some (JObj [("body", JStr "Table 7: ready for pickup");
                                 ("data", JObj [("orderId", JStr "ORD-7")])])))) in
  n_title shown = Some (JStr "Sarawak Food Court") /\
  n_body shown = Some (JStr "Table 7: ready for pickup") /\
  n_data shown = Some (JObj [("orderId", JStr "ORD-7")]).
Proof.
  cbn zeta.
  destruct (push_payload_overrides_defaults
              (mkPush "{...}"
                 (Some (JObj [("body", JStr "Table 7: ready for pickup");
                              ("data", JObj [("orderId", JStr "ORD-7")])]))))
    as (_ & Hobj & _).
  rewrite (Hobj _ eq_refl). cbn [n_title n_body n_data].
  split; [|split]; vm_compute; reflexivity.
Defined.

End PayloadExtras.

(** ** Bounds of the width, and what activation keeps *)

Section BoundsExtras.

Import Progress.

(** X21: whatever the current status, the progress width lies between
    -100/3 and 100; it is negative exactly when the status is not one of
    the four steps, and it is 100 exactly when the status is completed. *)
Theorem width_bounds (t : Tracker) :
  (-100 # 3 <= getProgressWidth t)%Q /\
  (getProgressWidth t <= 100)%Q /\
  (In (currentStep t) steps <-> (0 <= getProgressWidth t)%Q) /\
  (currentStep t = "completed" <-> (getProgressWidth t == 100)%Q).
Proof.
  rewrite width_of_index. pose proof (indexOf_range (currentStep t)) as Hr.
  assert (Hpos : (0 <= inject_Z (JsArray.indexOf steps (currentStep t)) / inject_Z 3
                       * inject_Z 100)%Q
                 <-> 0 <= JsArray.indexOf steps (currentStep t)).
  { unfold Qle, Qdiv, Qmult, Qinv, inject_Z. simpl. lia. }
  assert (Hfull : (inject_Z (JsArray.indexOf steps (currentStep t)) / inject_Z 3
                   * inject_Z 100 == 100)%Q
                  <-> JsArray.indexOf steps (currentStep t) = 3).
  { unfold Qeq, Qdiv, Qmult, Qinv, inject_Z. simpl. lia. }
  split; [unfold Qle, Qdiv, Qmult, Qinv, inject_Z; simpl; lia|].
  split; [unfold Qle, Qdiv, Qmult, Qinv, inject_Z; simpl; lia|].
  split.
  - rewrite Hpos. split.
    + intros Hin. unfold steps in Hin. cbn [In] in Hin.
      destruct Hin as [E|[E|[E|[E|[]]]]]; rewrite <- E; vm_compute; discriminate.
    + intros Hge. destruct (in_dec string_dec (currentStep t) steps) as [Hin|Hout];
        [exact Hin|]. rewrite (indexOf_off_scale _ Hout) in Hge. lia.
  - rewrite Hfull. split.
    + intros ->. reflexivity.
    + intros Hi. unfold JsArray.indexOf, steps in Hi. cbn [JsArray.indexOf_from] in Hi.
      destruct (String.eqb "pending" (currentStep t)); [discriminate Hi|].
      destruct (String.eqb "preparing" (currentStep t)); [discriminate Hi|].
      destruct (String.eqb "ready" (currentStep t)); [discriminate Hi|].
      destruct (String.eqb_spec "completed" (currentStep t)) as [E|_];
        [symmetry; exact E|discriminate Hi].
Qed.

End BoundsExtras.

Section ActivationExtras.

Import ServiceWorker.

Lemma cacheOf_current_kept (s : list (string * gmap (string * string) Response)) :
  cacheOf CACHE_NAME (List.filter isCurrent s) = cacheOf CACHE_NAME s.
Proof.
  induction s as [|[k c] s IH]; [reflexivity|].
  cbn [List.filter cacheOf]. unfold isCurrent at 1. cbn [fst].
  destruct (String.eqb k CACHE_NAME) eqn:E; cbn [cacheOf]; rewrite ?E; [reflexivity|exact IH].
Qed.

(** X22: activation leaves the contents of the current generation as they
    are, and afterwards the cache answers a request exactly when the
    current generation holds it: what only an earlier generation had
    cached is no longer served from the cache. *)
Theorem activation_keeps_current_contents
    (s : list (string * gmap (string * string) Response)) (request : string * string) :
  cacheOf CACHE_NAME (activate s) = cacheOf CACHE_NAME s /\
  caches_match request (activate s) = stored request s /\
  (stored request s = None ->
   forall net, handleFetch net request (activate s)
               = match net request with
                 | Some fetched =>
                     (Some fetched,
                      cache_put CACHE_NAME request fetched
                        (caches_open CACHE_NAME (activate s)))
                 | None => (stored (GET "/offline.html") s, activate s)
                 end).
Proof.
  rewrite activate_keeps_current. split; [apply cacheOf_current_kept|].
  split; [reflexivity|]. intros Hnone net. unfold handleFetch.
  change (caches_match request (List.filter isCurrent s)) with (stored request s).
  rewrite Hnone. reflexivity.
Qed.

Lemma activation_keeps_current_contents_witness :
  let old := [("sarawak-food-court-v0", {[ GET "/promo.html" := mkResponse 200 "promo" ]});
              (CACHE_NAME, ∅)] in
  caches_match (GET "/promo.html") old = Some (mkResponse 200 "promo") /\
  fst (handleFetch (fun _ => None) (GET "/promo.html") (activate old)) = None.
Proof.
  cbn zeta. split; [vm_compute; reflexivity|].
  destruct (activation_keeps_current_contents
              [("sarawak-food-court-v0", {[ GET "/promo.html" := mkResponse 200 "promo" ]});
               (CACHE_NAME, ∅)] (GET "/promo.html")) as (_ & _ & H).
  rewrite (H eq_refl (fun _ => None)). reflexivity.
Defined.

End ActivationExtras.
